(** * Unsilence: interval rendering worker and session facade

    A shallow embedding of [unsilence/lib/render_media/RenderIntervalThread.py]
    and [unsilence/Unsilence.py].  Python values are modelled as the code has
    them: [bytes] and [str] as [string] (one [ascii] per byte or per code point
    below 256), [float] as IEEE binary64 ([PrimFloat]), raised exceptions as an
    explicit [Raise] result, and the effects of the worker (the queue lock, the
    task queue, the child processes, the completion callback) as a state that is
    threaded through a small state-and-exception monad. *)

From Stdlib Require Import List String Ascii Bool ZArith Arith Lia Floats.
Import ListNotations.

Local Open Scope list_scope.
Local Open Scope string_scope.

(** ** Fragments of the Python runtime used by the two source files *)

Module Py.

(** Exceptions the source raises explicitly or through a builtin. *)
Inductive exn : Type :=
| IOError (msg : string)
| ValueError (msg : string)
| EnvironmentError (msg : string)
| ZeroDivisionError
| IndexError
| RecursionError
| FileNotFoundError (msg : string).

Inductive result (A : Type) : Type :=
| Ok (a : A)
| Raise (e : exn).

Arguments Ok {A} a.
Arguments Raise {A} e.

(** [needle in hay] on [str]. *)
Fixpoint contains (needle hay : string) : bool :=
  if String.prefix needle hay then true
  else match hay with
       | EmptyString => false
       | String _ hay' => contains needle hay'
       end.

(** [sep.join(parts)]. *)
Fixpoint join (sep : string) (parts : list string) : string :=
  match parts with
  | [] => EmptyString
  | [p] => p
  | p :: ps => p ++ sep ++ join sep ps
  end.

Definition snoc (s : string) (c : ascii) : string := s ++ String c EmptyString.

(** Line boundaries of [str.splitlines] among the code points below 256:
    LF, VT, FF, CR, FS, GS, RS and NEL. *)
Definition is_linebreak (c : ascii) : bool :=
  let n := nat_of_ascii c in
  Nat.eqb n 10 || Nat.eqb n 11 || Nat.eqb n 12 || Nat.eqb n 13
  || Nat.eqb n 28 || Nat.eqb n 29 || Nat.eqb n 30 || Nat.eqb n 133.

(** [cur] is the line being scanned, [None] at the start of a line: a string
    that ends in a line break has no empty last line. *)
Fixpoint splitlines_from (cur : option string) (s : string) : list string :=
  match s with
  | EmptyString => match cur with None => [] | Some l => [l] end
  | String c rest =>
      let l := match cur with None => EmptyString | Some l => l end in
      if is_linebreak c then
        match rest with
        | String c' rest' =>
            if Nat.eqb (nat_of_ascii c) 13 && Nat.eqb (nat_of_ascii c') 10
            then l :: splitlines_from None rest'
            else l :: splitlines_from None rest
        | EmptyString => l :: splitlines_from None rest
        end
      else splitlines_from (Some (snoc l c)) rest
  end.

Definition splitlines (s : string) : list string := splitlines_from None s.

(** [l[-1]]: the last item, [IndexError] on the empty list. *)
Fixpoint last_item {A} (l : list A) : result A :=
  match l with
  | [] => Raise IndexError
  | [x] => Ok x
  | _ :: l' => last_item l'
  end.

Definition hex_digit (n : nat) : ascii :=
  match String.get n "0123456789abcdef" with
  | Some c => c
  | None => "0"%char
  end.

Definition squote : ascii := ascii_of_nat 39.
Definition dquote : ascii := ascii_of_nat 34.
Definition backslash : ascii := ascii_of_nat 92.

Fixpoint has_byte (q : ascii) (b : string) : bool :=
  match b with
  | EmptyString => false
  | String c b' => Ascii.eqb c q || has_byte q b'
  end.

Definition escape_byte (quote c : ascii) : string :=
  let n := nat_of_ascii c in
  if Ascii.eqb c quote || Ascii.eqb c backslash then String backslash (String c EmptyString)
  else if Nat.eqb n 9 then String backslash "t"
  else if Nat.eqb n 10 then String backslash "n"
  else if Nat.eqb n 13 then String backslash "r"
  else if Nat.ltb n 32 || Nat.leb 127 n
       then String backslash (String "x" (String (hex_digit (n / 16)) (String (hex_digit (n mod 16)) EmptyString)))
  else String c EmptyString.

Fixpoint escape_bytes (quote : ascii) (b : string) : string :=
  match b with
  | EmptyString => EmptyString
  | String c b' => escape_byte quote c ++ escape_bytes quote b'
  end.

(** [str(b)] for [b : bytes]: the literal notation, quoted with a double quote
    only when the bytes hold a single quote and no double quote. *)
Definition str_of_bytes (b : string) : string :=
  let quote := if has_byte squote b && negb (has_byte dquote b) then dquote else squote in
  String "b" (String quote (escape_bytes quote b ++ String quote EmptyString)).

Fixpoint no_linebreak (s : string) : bool :=
  match s with
  | EmptyString => true
  | String c s' => negb (is_linebreak c) && no_linebreak s'
  end.

(** [a / b] on floats: [ZeroDivisionError] when the divisor compares equal to zero. *)
Definition truediv (a b : float) : result float :=
  if PrimFloat.eqb b 0%float then Raise ZeroDivisionError else Ok (PrimFloat.div a b).

(** [a != b] on floats. *)
Definition float_ne (a b : float) : bool := negb (PrimFloat.eqb a b).

(** [p] holds of every byte of [s]. *)
Fixpoint all_bytes (p : ascii -> bool) (s : string) : bool :=
  match s with
  | EmptyString => true
  | String c s' => p c && all_bytes p s'
  end.

(** Neither a backslash nor a quote. *)
Definition unquoted (c : ascii) : bool :=
  negb (Ascii.eqb c backslash || Ascii.eqb c squote || Ascii.eqb c dquote).

(** The bytes [str(b)] writes as they are: printable ASCII but for the
    backslash and the quotes. *)
Definition written_as_is (c : ascii) : bool :=
  let n := nat_of_ascii c in
  Nat.leb 32 n && Nat.ltb n 127 && unquoted c.

(** Everything [str(b)] writes that is not a byte written as it is: the
    leading letter, the quotes, the backslash and what follows it in an
    escape. *)
Definition escape_alphabet : string := String dquote "b'\tnrx0123456789abcdef".

Definition outside_escapes (c : ascii) : bool := negb (has_byte c escape_alphabet).

End Py.

Import Py.

Declare Scope result_scope.
Delimit Scope result_scope with result.

Definition result_bind {A B} (r : result A) (k : A -> result B) : result B :=
  match r with
  | Ok a => k a
  | Raise e => Raise e
  end.

Notation "x <- r ;; k" := (result_bind r (fun x => k))
  (at level 100, r at next level, right associativity) : result_scope.

(** ** What the builtin float formatting does is left open

    [str(x)] (also the empty format spec of an f-string), the [.4f] format and
    [round(x, 4)] are the interpreter's; the command builder only places their
    results. *)
Class FloatText : Type := {
  str_float : float -> string;
  format_4f : float -> string;
  round4 : float -> float
}.

(** ** Data model *)

(** [unsilence.lib.intervals.Interval.Interval], as far as the worker reads it. *)
Record Interval : Type := {
  start : float;
  end_ : float;
  is_silent : bool
}.

(** Modelled from the spec: the class [Interval] is not among the sources; its
    derived attribute is [duration = end - start]. *)
Definition duration (interval : Interval) : float :=
  PrimFloat.sub (end_ interval) (start interval).

(** The [render_options] namespace. *)
Record RenderOptions : Type := {
  audible_speed : float;
  silent_speed : float;
  audible_volume : float;
  silent_volume : float;
  audio_only : bool;
  drop_corrupted_intervals : bool;
  check_intervals : bool;
  minimum_interval_duration : float;
  interval_in_fade_duration : float;
  interval_out_fade_duration : float;
  fade_curve : string
}.

(** A task of the queue. *)
Record Task : Type := {
  interval_output_file : string;
  interval : Interval
}.

(** ** The worker: [RenderIntervalThread] *)

Module RenderIntervalThread.

(** The attributes of a worker that never change after [__init__].
    [_on_task_completed] is [true] when the keyword argument was given and
    [false] when it is [None]; what the callback then does is outside the
    worker, its calls are recorded in the trace below. *)
Record t : Type := {
  thread_id : nat;
  _input_file : string;
  _render_options : RenderOptions;
  _on_task_completed : bool
}.

Definition clamp_speed (duration speed minimum_interval_duration : float) : result float :=
  (q <- truediv duration speed ;;
   if PrimFloat.ltb q minimum_interval_duration
   then truediv duration minimum_interval_duration
   else Ok speed)%result.

(** The speed the filtered path asks [clamp_speed] to clamp, and what comes
    back when no division fails. *)
Definition tagged_speed (opts : RenderOptions) (interval : Interval) : float :=
  if is_silent interval then silent_speed opts else audible_speed opts.

Definition clamped_speed (opts : RenderOptions) (interval : Interval)
    (minimum_interval_duration : float) : float :=
  if PrimFloat.ltb (PrimFloat.div (duration interval) (tagged_speed opts interval))
       minimum_interval_duration
  then PrimFloat.div (duration interval) minimum_interval_duration
  else tagged_speed opts interval.

(** Whether one of the divisions of the filtered path meets a divisor equal
    to zero: [duration / speed]; [duration / minimum_interval_duration] when
    the speed is clamped; [1 / current_speed] when video is kept. *)
Definition divides_by_zero (opts : RenderOptions) (interval : Interval)
    (minimum_interval_duration : float) : bool :=
  PrimFloat.eqb (tagged_speed opts interval) 0%float
  || (PrimFloat.ltb (PrimFloat.div (duration interval) (tagged_speed opts interval))
        minimum_interval_duration
      && PrimFloat.eqb minimum_interval_duration 0%float)
  || (negb (audio_only opts)
      && PrimFloat.eqb (clamped_speed opts interval minimum_interval_duration) 0%float).

Section CommandBuilder.

Context {FT : FloatText}.

Definition fade_in_stage (interval_in_fade_duration : float) (fade_curve : string) : string :=
  "afade=t=in:st=0:d=" ++ format_4f interval_in_fade_duration ++ ":curve=" ++ fade_curve.

Definition fade_out_stage (total_duration interval_out_fade_duration : float)
    (fade_curve : string) : string :=
  "afade=t=out"
  ++ ":st=" ++ format_4f (PrimFloat.sub total_duration interval_out_fade_duration)
  ++ ":d=" ++ format_4f interval_out_fade_duration
  ++ ":curve=" ++ fade_curve.

Definition _get_fade_filter (total_duration interval_in_fade_duration
    interval_out_fade_duration : float) (fade_curve : string) : string :=
  let res := [] in
  let res :=
    if float_ne interval_in_fade_duration 0%float
    then (res ++ [fade_in_stage interval_in_fade_duration fade_curve])%list
    else res in
  let res :=
    if float_ne interval_out_fade_duration 0%float
    then (res ++ [fade_out_stage total_duration interval_out_fade_duration fade_curve])%list
    else res in
  join "," res.

Definition is_empty (s : string) : bool :=
  match s with EmptyString => true | _ => false end.

Definition video_stage (current_speed : float) : result string :=
  (inv <- truediv 1%float current_speed ;;
   Ok ("[0:v]setpts=" ++ str_float (round4 inv) ++ "*PTS[v]"))%result.

Definition audio_stage (fade : string) (current_speed current_volume : float) : string :=
  "[0:a]" ++ fade ++ "atempo=" ++ str_float (round4 current_speed)
  ++ ",volume=" ++ str_float current_volume ++ "[a]".

(** The list [complex_filter] of the filtered path, before it is joined. *)
Definition complex_filter_stages (opts : RenderOptions) (interval : Interval)
    (fade : string) (minimum_interval_duration : float) : result (list string) :=
  (let complex_filter := [] in
   let current_speed :=
     if is_silent interval then silent_speed opts else audible_speed opts in
   let current_volume :=
     if is_silent interval then silent_volume opts else audible_volume opts in
   current_speed <- clamp_speed (duration interval) current_speed minimum_interval_duration ;;
   complex_filter <-
     (if negb (audio_only opts)
      then (v <- video_stage current_speed ;; Ok (complex_filter ++ [v])%list)
      else Ok complex_filter) ;;
   let fade := if negb (is_empty fade) then fade ++ "," else fade in
   Ok (complex_filter ++ [audio_stage fade current_speed current_volume])%list)%result.

Definition _generate_command (self : t) (interval_output_file : string)
    (interval : Interval) (apply_filter : bool) (minimum_interval_duration : float)
    : result (list string) :=
  (let opts := _render_options self in
   let fade :=
     _get_fade_filter (duration interval) (interval_in_fade_duration opts)
       (interval_out_fade_duration opts) (fade_curve opts) in
   let command :=
     [ "ffmpeg";
       "-ss"; str_float (start interval);
       "-to"; str_float (end_ interval);
       "-i"; _input_file self;
       "-vsync"; "1";
       "-async"; "1";
       "-safe"; "0";
       "-ignore_unknown"; "-y" ] in
   command <-
     (if apply_filter then
        complex_filter <- complex_filter_stages opts interval fade minimum_interval_duration ;;
        let command := (command ++ ["-filter_complex"; join ";" complex_filter])%list in
        let command :=
          if negb (audio_only opts) then (command ++ ["-map"; "[v]"])%list else command in
        Ok (command ++ ["-map"; "[a]"])%list
      else
        let command :=
          if negb (is_empty fade) then (command ++ ["-af"; fade])%list else command in
        let command := if audio_only opts then (command ++ ["-vn"])%list else command in
        Ok command) ;;
   Ok (command ++ [interval_output_file])%list)%result.

(** Whether a command line was built. *)
Definition is_ok_command (r : result (list string)) : bool :=
  match r with Ok _ => true | Raise _ => false end.

(** The filter graph in the words of the specification: an optional video
    stage scaled by the inverse of the clamped speed, then the audio chain,
    in which the optional fade-in and fade-out stand before the tempo stage
    and the gain stage. *)
Definition spec_fades (opts : RenderOptions) (interval : Interval) : string :=
  (if float_ne (interval_in_fade_duration opts) 0%float
   then "afade=t=in:st=0:d=" ++ format_4f (interval_in_fade_duration opts)
        ++ ":curve=" ++ fade_curve opts ++ ","
   else EmptyString)
  ++ (if float_ne (interval_out_fade_duration opts) 0%float
      then "afade=t=out:st="
           ++ format_4f (PrimFloat.sub (duration interval) (interval_out_fade_duration opts))
           ++ ":d=" ++ format_4f (interval_out_fade_duration opts)
           ++ ":curve=" ++ fade_curve opts ++ ","
      else EmptyString).

Definition spec_video_stage (clamped : float) : string :=
  "[0:v]setpts=" ++ str_float (round4 (PrimFloat.div 1%float clamped)) ++ "*PTS[v]".

Definition spec_audio_stage (opts : RenderOptions) (interval : Interval) (clamped : float)
    : string :=
  "[0:a]" ++ spec_fades opts interval
  ++ "atempo=" ++ str_float (round4 clamped)
  ++ ",volume="
  ++ str_float (if is_silent interval then silent_volume opts else audible_volume opts)
  ++ "[a]".

Definition spec_filter_graph (opts : RenderOptions) (interval : Interval) (clamped : float)
    : string :=
  (if audio_only opts then EmptyString else spec_video_stage clamped ++ ";")
  ++ spec_audio_stage opts interval clamped.

End CommandBuilder.

(** *** Child processes, the shared queue and the worker monad *)

(** What [subprocess.run] hands back.  With [stdout=PIPE, stderr=STDOUT] the
    field [stdout] holds the combined output as [bytes]. *)
Record CompletedProcess : Type := {
  returncode : Z;
  stdout : string
}.

(** The operating system as the worker sees it.  [subprocess_run] is a
    run of a command line whose program started: it yields a completed
    process and a changed world.  [start_error] is what [subprocess.run]
    raises instead when the program of the command line cannot be started
    ([FileNotFoundError] and the like).  The engine is taken to start: the
    session checks for it when it is built.  The probe is a program of its
    own, nothing in the sources checks for it, and its run asks
    [start_error] first.  The probe is run with [stdout=DEVNULL]; only its
    [returncode] is read. *)
Class Subprocess (World : Type) : Type := {
  subprocess_run : list string -> World -> CompletedProcess * World;
  start_error : list string -> World -> option exn
}.

(** How the worker reads the output of the engine. *)

(** The test [_render_interval] makes first: the marker in the last line of
    [str(console_output.stdout)]. *)
Definition reports_conversion_failure (out : CompletedProcess) : bool :=
  match last_item (splitlines (str_of_bytes (stdout out))) with
  | Ok last_line => contains "Conversion failed!" last_line
  | Raise _ => false
  end.

(** The test it makes second: the marker anywhere in [str(console_output.stdout)]. *)
Definition reports_filter_error (out : CompletedProcess) : bool :=
  contains "Error initializing complex filter" (str_of_bytes (stdout out)).

(** What a worker does that others can observe.  [Completed] is one call of
    the completion callback; [locked] tells whether the caller held
    [thread_lock] at that moment. *)
Inductive Event : Type :=
| Acquire
| Release
| Run (command : list string)
| Completed (task : Task) (failed : bool) (locked : bool).

Definition is_run (e : Event) : bool :=
  match e with Run _ => true | _ => false end.

(** The tasks the callback was called with, in the order of the calls. *)
Fixpoint completed_tasks (evs : list Event) : list Task :=
  match evs with
  | [] => []
  | Completed task _ _ :: evs' => task :: completed_tasks evs'
  | _ :: evs' => completed_tasks evs'
  end.

(** No callback in [evs] was made with the lock held. *)
Definition callbacks_unlocked (evs : list Event) : bool :=
  forallb (fun e => match e with Completed _ _ locked => negb locked | _ => true end) evs.

(** Replays a trace against the lock, from the state [held]: a free lock
    is acquired, a held one released, and processes are run and callbacks
    made with the lock free.  The lock state at the end, or [None] where the
    trace breaks that discipline. *)
Fixpoint replay_lock (held : bool) (evs : list Event) : option bool :=
  match evs with
  | [] => Some held
  | Acquire :: evs' => if held then None else replay_lock true evs'
  | Release :: evs' => if held then replay_lock false evs' else None
  | Run _ :: evs' => if held then None else replay_lock false evs'
  | Completed _ _ locked :: evs' =>
      if held || locked then None else replay_lock false evs'
  end.

(** Only runs and callbacks, the callbacks with the lock free. *)
Definition unlocked_work (evs : list Event) : bool :=
  forallb (fun e => match e with
                    | Run _ => true
                    | Completed _ _ locked => negb locked
                    | _ => false
                    end) evs.

(** Whether an event is a run of the engine, or of the probe when [check]
    allows it; anything that is not a run passes. *)
Definition engine_or_probe (check : bool) (e : Event) : bool :=
  match e with
  | Run (program :: _) =>
      String.eqb program "ffmpeg" || (check && String.eqb program "ffprobe")
  | Run [] => false
  | _ => true
  end.

(** What one worker works on: the world of child processes, the shared
    queue, whether this worker holds [thread_lock], its exit flag, and the
    trace.  One worker is followed; the queue changes only when it takes a
    task. *)
Record State (World : Type) : Type := {
  world : World;
  task_queue : list Task;
  lock_held : bool;
  _should_exit : bool;
  trace : list Event
}.

Arguments world {World} _.
Arguments task_queue {World} _.
Arguments lock_held {World} _.
Arguments _should_exit {World} _.
Arguments trace {World} _.

Declare Scope worker_scope.
Delimit Scope worker_scope with worker.

Section Worker.

Context {World : Type} {SP : Subprocess World} {FT : FloatText}.

Definition M (A : Type) : Type := State World -> result A * State World.

Definition ret {A} (a : A) : M A := fun st => (Ok a, st).

Definition raise {A} (e : exn) : M A := fun st => (Raise e, st).

Definition bind {A B} (m : M A) (k : A -> M B) : M B :=
  fun st =>
    match m st with
    | (Ok a, st') => k a st'
    | (Raise e, st') => (Raise e, st')
    end.

Definition lift {A} (r : result A) : M A := fun st => (r, st).

Notation "x <- m ;; k" := (bind m (fun x => k))
  (at level 100, m at next level, right associativity) : worker_scope.
Notation "m ;; k" := (bind m (fun _ => k))
  (at level 100, right associativity) : worker_scope.

Definition log (e : Event) (st : State World) : State World :=
  {| world := world st; task_queue := task_queue st; lock_held := lock_held st;
     _should_exit := _should_exit st; trace := (trace st ++ [e])%list |}.

(** [self.thread_lock.acquire()] and [release()], seen from the worker that
    gets the lock. *)
Definition acquire : M unit := fun st =>
  (Ok tt, log Acquire
     {| world := world st; task_queue := task_queue st; lock_held := true;
        _should_exit := _should_exit st; trace := trace st |}).

Definition release : M unit := fun st =>
  (Ok tt, log Release
     {| world := world st; task_queue := task_queue st; lock_held := false;
        _should_exit := _should_exit st; trace := trace st |}).

Definition get_queue : M (list Task) := fun st => (Ok (task_queue st), st).

Definition set_queue (q : list Task) : M unit := fun st =>
  (Ok tt, {| world := world st; task_queue := q; lock_held := lock_held st;
             _should_exit := _should_exit st; trace := trace st |}).

(** The state once [command] has run and left the world [w]. *)
Definition after_run (command : list string) (w : World) (st : State World) : State World :=
  log (Run command)
    {| world := w; task_queue := task_queue st; lock_held := lock_held st;
       _should_exit := _should_exit st; trace := trace st |}.

(** [subprocess.run(command, ...)] for a program that starts: the run of
    the engine in [_render_interval], and the run of the probe once
    [run_probe] has found that it can be started. *)
Definition run_process (command : list string) : M CompletedProcess := fun st =>
  let '(out, w) := subprocess_run command (world st) in
  (Ok out, after_run command w st).

(** [subprocess.run([ffprobe, ...], ...)]: raises, with nothing run, when
    the probe cannot be started. *)
Definition run_probe (command : list string) : M CompletedProcess := fun st =>
  match start_error command (world st) with
  | Some e => (Raise e, st)
  | None => run_process command st
  end.

(** [self._on_task_completed(task, failed)]. *)
Definition on_task_completed (task : Task) (failed : bool) : M unit := fun st =>
  (Ok tt, log (Completed task failed (lock_held st)) st).

Definition invalid_options : exn := ValueError "Invalid render options".

Definition corrupted_message (interval : Interval) : string :=
  "Input file is corrupted between " ++ str_float (start interval)
  ++ " and " ++ str_float (end_ interval) ++ " (in seconds)".

(** [_render_interval].  [depth] is the number of stack frames left for it:
    the method calls itself, once, from the filtered attempt.  The value of
    [early] is what a [return] inside the first [if] hands back. *)
Fixpoint render_interval_rec (depth : nat) (self : t) (interval_output_file : string)
    (interval : Interval) (apply_filter drop_corrupted_intervals : bool)
    (minimum_interval_duration : float) : M bool :=
  match depth with
  | O => raise RecursionError
  | S depth' =>
    (command <- lift (_generate_command self interval_output_file interval apply_filter
                        minimum_interval_duration) ;;
     console_output <- run_process command ;;
     let text := str_of_bytes (stdout console_output) in
     last_line <- lift (last_item (splitlines text)) ;;
     early <-
       (if contains "Conversion failed!" last_line then
          if drop_corrupted_intervals then ret (Some false)
          else
            (if apply_filter then
               (_ <- render_interval_rec depth' self interval_output_file interval
                       false drop_corrupted_intervals minimum_interval_duration ;;
                ret tt)
             else raise (IOError (corrupted_message interval))) ;;
            ret None
        else ret None) ;;
     match early with
     | Some returned => ret returned
     | None =>
         if contains "Error initializing complex filter" text
         then raise (ValueError "Invalid render options")
         else ret true
     end)%worker
  end.

(** Two frames are all the method ever needs (see [render_interval_depth]). *)
Definition _render_interval : t -> string -> Interval -> bool -> bool -> float -> M bool :=
  render_interval_rec 2.

(** The state of a worker that has taken the head of the queue and let go
    of the lock. *)
Definition taken (rest : list Task) (st : State World) : State World :=
  {| world := world st; task_queue := rest; lock_held := false;
     _should_exit := _should_exit st; trace := (trace st ++ [Acquire; Release])%list |}.

Definition probe_command (task : Task) : list string :=
  ["ffprobe"; "-loglevel"; "quiet"; interval_output_file task].

(** One turn of the [while] loop of [run]. *)
Definition run_iteration (self : t) : M unit :=
  (let opts := _render_options self in
   acquire ;;
   queue <- get_queue ;;
   match queue with
   | task :: rest =>
       set_queue rest ;;
       release ;;
       completed <- _render_interval self (interval_output_file task) (interval task) true
                      (drop_corrupted_intervals opts) (minimum_interval_duration opts) ;;
       completed <-
         (if completed && check_intervals opts then
            probe_output <- run_probe (probe_command task) ;;
            ret (Z.eqb (returncode probe_output) 0)
          else ret completed) ;;
       if _on_task_completed self then on_task_completed task (negb completed) else ret tt
   | [] => release
   end)%worker.

(** How a run of the loop ended within the turns that were watched. *)
Inductive LoopEnd : Type :=
| Exited
| StillRunning.

Definition is_ok_loop (r : result LoopEnd) : bool :=
  match r with Ok _ => true | Raise _ => false end.

(** [run]: the loop goes on until [_should_exit] is seen; [turns] bounds how
    many turns are watched. *)
Fixpoint run (turns : nat) (self : t) : M LoopEnd :=
  match turns with
  | O => fun st => if _should_exit st then (Ok Exited, st) else (Ok StillRunning, st)
  | S turns' => fun st =>
      if _should_exit st then (Ok Exited, st)
      else (run_iteration self ;; run turns' self)%worker st
  end.

(** [stop]. *)
Definition stop : M unit := fun st =>
  (Ok tt, {| world := world st; task_queue := task_queue st; lock_held := lock_held st;
             _should_exit := true; trace := trace st |}).

End Worker.

End RenderIntervalThread.

(** ** The session facade: [Unsilence] *)

Module Unsilence.

(** The session object.  [_intervals] starts as [None]. *)
Record t (Intervals : Type) : Type := {
  _input_file : string;
  _temp_dir : string;
  _intervals : option Intervals
}.

Arguments _input_file {Intervals} _.
Arguments _temp_dir {Intervals} _.
Arguments _intervals {Intervals} _.

(** The modules the facade imports and that are not among the sources:
    [Intervals], [detect_silence], [calculate_time] and [MediaRenderer].  Each
    may raise; [render] stands for [MediaRenderer(temp_dir).render(...)]. *)
Class Collaborators (Intervals Kwargs TimeInfo : Type) : Type := {
  lib_detect_silence : string -> Kwargs -> result Intervals;
  lib_calculate_time : Intervals -> float -> float -> result TimeInfo;
  lib_render : string -> string -> string -> Intervals -> Kwargs -> result unit
}.

Section Facade.

Context {Intervals Kwargs TimeInfo : Type} {C : Collaborators Intervals Kwargs TimeInfo}.

(** Calls that leave the facade. *)
Inductive Call : Type :=
| CallIsFfmpegUsable
| CallDetectSilence (input_file : string) (kwargs : Kwargs)
| CallCalculateTime (intervals : Intervals) (audible_speed silent_speed : float)
| CallRender (temp_dir input_file output_file : string) (intervals : Intervals)
    (kwargs : Kwargs).

(** The interpreter process around a session: what [is_ffmpeg_usable()]
    answers on this host, the lines printed to [sys.stderr], the temporary
    directories whose [cleanup] is registered with [atexit], and the calls
    made so far. *)
Record Process : Type := {
  host_ffmpeg_status : string;
  stderr : list string;
  atexit_registered : list string;
  calls : list Call
}.

Definition P (A : Type) : Type := Process -> result A * Process.

Definition pret {A} (a : A) : P A := fun p => (Ok a, p).

Definition praise {A} (e : exn) : P A := fun p => (Raise e, p).

Definition pbind {A B} (m : P A) (k : A -> P B) : P B :=
  fun p =>
    match m p with
    | (Ok a, p') => k a p'
    | (Raise e, p') => (Raise e, p')
    end.

Notation "x <- m ;; k" := (pbind m (fun x => k))
  (at level 100, m at next level, right associativity).
Notation "m ;; k" := (pbind m (fun _ => k))
  (at level 100, right associativity).

Definition called (c : Call) (p : Process) : Process :=
  {| host_ffmpeg_status := host_ffmpeg_status p; stderr := stderr p;
     atexit_registered := atexit_registered p; calls := (calls p ++ [c])%list |}.

Definition is_ffmpeg_usable : P string := fun p =>
  (Ok (host_ffmpeg_status p), called CallIsFfmpegUsable p).

Definition print_stderr (line : string) : P unit := fun p =>
  (Ok tt, {| host_ffmpeg_status := host_ffmpeg_status p; stderr := (stderr p ++ [line])%list;
             atexit_registered := atexit_registered p; calls := calls p |}).

Definition atexit_register (temp_dir : string) : P unit := fun p =>
  (Ok tt, {| host_ffmpeg_status := host_ffmpeg_status p; stderr := stderr p;
             atexit_registered := (atexit_registered p ++ [temp_dir])%list;
             calls := calls p |}).

Definition version_warning : string :=
  "Could not detect ffmpeg version, proceed at your own risk! (version >= 4.2.4 required)".

Definition missing_intervals : string :=
  "Silence detection was not yet run and no intervals where given manually!".

(** [__init__]. *)
Definition init (input_file temp_dir : string) : P (t Intervals) :=
  let self := {| _input_file := input_file; _temp_dir := temp_dir; _intervals := None |} in
  ffmpeg_status <- is_ffmpeg_usable ;;
  (if String.eqb ffmpeg_status "not_detected" then
     praise (EnvironmentError "ffmpeg not found!")
   else if String.eqb ffmpeg_status "requirements_unsatisfied" then
     praise (EnvironmentError "ffmpeg version not supported, a version >= 4.2.4 is required!")
   else if String.eqb ffmpeg_status "unknown_version" then
     print_stderr version_warning
   else pret tt) ;;
  atexit_register (_temp_dir self) ;;
  pret self.

Definition with_intervals (self : t Intervals) (intervals : option Intervals) : t Intervals :=
  {| _input_file := _input_file self; _temp_dir := _temp_dir self; _intervals := intervals |}.

(** [detect_silence]: the value and the session after the assignment. *)
Definition detect_silence (self : t Intervals) (kwargs : Kwargs)
    : P (Intervals * t Intervals) := fun p =>
  let p' := called (CallDetectSilence (_input_file self) kwargs) p in
  match lib_detect_silence (_input_file self) kwargs with
  | Ok intervals => (Ok (intervals, with_intervals self (Some intervals)), p')
  | Raise e => (Raise e, p')
  end.

(** [set_intervals], for the argument its annotation admits. *)
Definition set_intervals (self : t Intervals) (intervals : Intervals) : t Intervals :=
  with_intervals self (Some intervals).

Definition get_intervals (self : t Intervals) : option Intervals := _intervals self.

Definition get_input_file (self : t Intervals) : string := _input_file self.

Definition estimate_time (self : t Intervals) (audible_speed silent_speed : float)
    : P TimeInfo :=
  match _intervals self with
  | None => praise (ValueError missing_intervals)
  | Some intervals => fun p =>
      (lib_calculate_time intervals audible_speed silent_speed,
       called (CallCalculateTime intervals audible_speed silent_speed) p)
  end.

Definition render_media (self : t Intervals) (output_file : string) (kwargs : Kwargs)
    : P unit :=
  match _intervals self with
  | None => praise (ValueError missing_intervals)
  | Some intervals => fun p =>
      (lib_render (_temp_dir self) (_input_file self) output_file intervals kwargs,
       called (CallRender (_temp_dir self) (_input_file self) output_file intervals kwargs) p)
  end.

End Facade.

End Unsilence.

(** ** Concrete runs

    A world whose child processes answer from a script, the text of the few
    floats that occur below, and one silent interval from second 1 to
    second 2. *)

Module Scenario.

Import RenderIntervalThread.

Definition newline : string := String (ascii_of_nat 10) EmptyString.

Definition Script : Type := list CompletedProcess.

Definition quiet_exit : CompletedProcess := {| returncode := 0; stdout := EmptyString |}.

#[export] Instance scripted : Subprocess Script := {|
  subprocess_run _ script :=
    match script with
    | [] => (quiet_exit, [])
    | reply :: script' => (reply, script')
    end;
  start_error _ _ := None
|}.

(** The same world on a host without the probe: every program but
    [ffprobe] starts. *)
Inductive ProbeMissing : Type :=
| probe_missing (script : Script).

Definition no_ffprobe : exn := FileNotFoundError "ffprobe".

#[export] Instance unprobed : Subprocess ProbeMissing := {|
  subprocess_run command host :=
    match host with
    | probe_missing script =>
        let '(reply, script') := subprocess_run command script in
        (reply, probe_missing script')
    end;
  start_error command _ :=
    match command with
    | program :: _ => if String.eqb program "ffprobe" then Some no_ffprobe else None
    | [] => None
    end
|}.

Definition idle_without_probe (queue : list Task) (script : Script) : State ProbeMissing :=
  {| world := probe_missing script; task_queue := queue; lock_held := false;
     _should_exit := false; trace := [] |}.

Fixpoint text_in (table : list (float * string)) (x : float) : string :=
  match table with
  | [] => "nan"
  | (y, s) :: table' => if PrimFloat.eqb x y then s else text_in table' x
  end.

#[export] Instance text : FloatText := {|
  str_float := text_in [ (0, "0.0"); (0.25, "0.25"); (0.5, "0.5"); (1, "1.0");
                         (2, "2.0"); (4, "4.0"); (6, "6.0") ]%float;
  format_4f := text_in [ (0, "0.0000"); (0.25, "0.2500"); (0.5, "0.5000"); (0.75, "0.7500");
                         (1, "1.0000"); (2, "2.0000") ]%float;
  round4 := fun x => x
|}.

Definition silent_second : Interval :=
  {| start := 1; end_ := 2; is_silent := true |}.

Definition options (drop check : bool) : RenderOptions :=
  {| audible_speed := 1; silent_speed := 6;
     audible_volume := 1; silent_volume := 0.5;
     audio_only := false;
     drop_corrupted_intervals := drop;
     check_intervals := check;
     minimum_interval_duration := 0.25;
     interval_in_fade_duration := 0;
     interval_out_fade_duration := 0;
     fade_curve := "tri" |}.

Definition worker (drop check : bool) : t :=
  {| thread_id := 0; _input_file := "in.mp4";
     _render_options := options drop check; _on_task_completed := true |}.

Definition task0 : Task :=
  {| interval_output_file := "out_0.mp4"; interval := silent_second |}.

Definition filtered_command : list string :=
  [ "ffmpeg"; "-ss"; "1.0"; "-to"; "2.0"; "-i"; "in.mp4"; "-vsync"; "1"; "-async"; "1";
    "-safe"; "0"; "-ignore_unknown"; "-y";
    "-filter_complex"; "[0:v]setpts=0.25*PTS[v];[0:a]atempo=4.0,volume=0.5[a]";
    "-map"; "[v]"; "-map"; "[a]"; "out_0.mp4" ].

Definition raw_command : list string :=
  [ "ffmpeg"; "-ss"; "1.0"; "-to"; "2.0"; "-i"; "in.mp4"; "-vsync"; "1"; "-async"; "1";
    "-safe"; "0"; "-ignore_unknown"; "-y"; "out_0.mp4" ].

(** Engine replies. *)
Definition fine : CompletedProcess :=
  {| returncode := 0; stdout := "video:10kB audio:2kB" ++ newline |}.

Definition conversion_failed : CompletedProcess :=
  {| returncode := 1; stdout := "Invalid data found" ++ newline ++ "Conversion failed!" ++ newline |}.

Definition filter_failed : CompletedProcess :=
  {| returncode := 1;
     stdout := "Error initializing complex filters." ++ newline ++ "Invalid argument" ++ newline |}.

Definition both_markers : CompletedProcess :=
  {| returncode := 1;
     stdout := "Error initializing complex filters." ++ newline ++ "Conversion failed!" ++ newline |}.

Definition probe_rejects : CompletedProcess := {| returncode := 1; stdout := EmptyString |}.

(** Stand-ins for the modules the facade imports: detection finds the one
    silent second, the estimate is the summed duration, rendering succeeds. *)
#[export] Instance collaborators : Unsilence.Collaborators (list Interval) unit float := {|
  Unsilence.lib_detect_silence _ _ := Ok [silent_second];
  Unsilence.lib_calculate_time intervals _ _ :=
    Ok (fold_right (fun i total => PrimFloat.add (duration i) total) 0%float intervals);
  Unsilence.lib_render _ _ _ _ _ := Ok tt
|}.

Definition host (status : string) : @Unsilence.Process (list Interval) unit :=
  {| Unsilence.host_ffmpeg_status := status; Unsilence.stderr := [];
     Unsilence.atexit_registered := []; Unsilence.calls := [] |}.

Definition fresh_session : Unsilence.t (list Interval) :=
  {| Unsilence._input_file := "in.mp4"; Unsilence._temp_dir := ".tmp";
     Unsilence._intervals := None |}.

Definition idle (queue : list Task) (script : Script) : State Script :=
  {| world := script; task_queue := queue; lock_held := false; _should_exit := false;
     trace := [] |}.

(** An interval that starts and ends at second 1, an audible second, and a
    worker with other speeds, volumes and fault-tolerance options. *)
Definition instant : Interval :=
  {| start := 1; end_ := 1; is_silent := true |}.

Definition audible_second : Interval :=
  {| start := 1; end_ := 2; is_silent := false |}.

Definition other_worker : t :=
  {| thread_id := 1; _input_file := "in.mp4";
     _render_options :=
       {| audible_speed := 2; silent_speed := 4;
          audible_volume := 0.5; silent_volume := 0;
          audio_only := false;
          drop_corrupted_intervals := true;
          check_intervals := true;
          minimum_interval_duration := 1;
          interval_in_fade_duration := 0;
          interval_out_fade_duration := 0;
          fade_curve := "tri" |};
     _on_task_completed := false |}.

End Scenario.

(** ** Facts about the runtime fragments *)

Import RenderIntervalThread.

Lemma append_assoc (a b c : string) : (a ++ b) ++ c = a ++ (b ++ c).
Proof.
  induction a as [|x a IH]; simpl; [reflexivity | now rewrite IH].
Qed.

Lemma append_empty_r (a : string) : a ++ EmptyString = a.
Proof.
  induction a as [|x a IH]; simpl; [reflexivity | now rewrite IH].
Qed.

(** Brings both sides of an equation between glued strings to one shape. *)
Ltac flatten_strings :=
  repeat (progress (cbn; rewrite ?append_assoc, ?append_empty_r)).

Lemma no_linebreak_app (a b : string) :
  no_linebreak (a ++ b) = no_linebreak a && no_linebreak b.
Proof.
  induction a as [|x a IH]; simpl; [reflexivity |].
  rewrite IH. now rewrite andb_assoc.
Qed.

Lemma splitlines_from_no_linebreak (s : string) :
  no_linebreak s = true ->
  forall cur,
    splitlines_from cur s =
    match cur, s with
    | None, EmptyString => []
    | None, _ => [s]
    | Some l, _ => [l ++ s]
    end.
Proof.
  induction s as [|c s IH]; intros Hs cur.
  - destruct cur as [l|]; simpl; [now rewrite append_empty_r | reflexivity].
  - simpl in Hs. apply andb_true_iff in Hs. destruct Hs as [Hc Hs].
    apply negb_true_iff in Hc. simpl. rewrite Hc.
    rewrite (IH Hs). unfold snoc.
    destruct cur as [l|]; simpl; [now rewrite append_assoc | reflexivity].
Qed.

Lemma escape_byte_no_linebreak (quote c : ascii) :
  quote = squote \/ quote = dquote ->
  no_linebreak (escape_byte quote c) = true.
Proof.
  intros [-> | ->];
    destruct c as [[|] [|] [|] [|] [|] [|] [|] [|]]; reflexivity.
Qed.

Lemma escape_bytes_no_linebreak (quote : ascii) (b : string) :
  quote = squote \/ quote = dquote ->
  no_linebreak (escape_bytes quote b) = true.
Proof.
  intros Hq. induction b as [|c b IH]; simpl; [reflexivity |].
  now rewrite no_linebreak_app, escape_byte_no_linebreak, IH.
Qed.

Lemma str_of_bytes_no_linebreak (b : string) : no_linebreak (str_of_bytes b) = true.
Proof.
  unfold str_of_bytes.
  set (quote := if has_byte squote b && negb (has_byte dquote b) then dquote else squote).
  assert (Hq : quote = squote \/ quote = dquote).
  { subst quote. destruct (has_byte squote b && negb (has_byte dquote b)); auto. }
  change (no_linebreak (String "b" (String quote (escape_bytes quote b ++ String quote EmptyString))))
    with (negb (is_linebreak "b") && (negb (is_linebreak quote)
            && no_linebreak (escape_bytes quote b ++ String quote EmptyString))).
  rewrite no_linebreak_app, (escape_bytes_no_linebreak _ _ Hq).
  destruct Hq as [-> | ->]; reflexivity.
Qed.

(** The text of a [bytes] value is one line: its last line is all of it, and
    the index [-1] never fails. *)
Lemma last_line_of_output (b : string) :
  last_item (splitlines (str_of_bytes b)) = Ok (str_of_bytes b).
Proof.
  unfold splitlines.
  rewrite (splitlines_from_no_linebreak _ (str_of_bytes_no_linebreak b)).
  reflexivity.
Qed.

Lemma reports_conversion_failure_eq (out : CompletedProcess) :
  reports_conversion_failure out = contains "Conversion failed!" (str_of_bytes (stdout out)).
Proof.
  unfold reports_conversion_failure. now rewrite last_line_of_output.
Qed.

Lemma contains_here (needle rest : string) : String.prefix needle (needle ++ rest) = true.
Proof.
  induction needle as [|c n IH]; simpl; [now destruct rest |].
  destruct (ascii_dec c c) as [_|N]; [exact IH | now elim N].
Qed.

Lemma contains_unfold (needle hay : string) :
  contains needle hay =
  if String.prefix needle hay then true
  else match hay with
       | EmptyString => false
       | String _ hay' => contains needle hay'
       end.
Proof.
  destruct hay; reflexivity.
Qed.

Lemma contains_app (needle before rest : string) :
  contains needle (before ++ needle ++ rest) = true.
Proof.
  induction before as [|c b IH].
  - simpl. now rewrite contains_unfold, contains_here.
  - change (String c b ++ needle ++ rest) with (String c (b ++ needle ++ rest)).
    rewrite contains_unfold, IH.
    now destruct (String.prefix needle (String c (b ++ needle ++ rest))).
Qed.

(** ** One render attempt *)

Section RenderAttempt.

Context {World : Type} {SP : Subprocess World} {FT : FloatText}.

(** A failure to build the command line is raised before anything runs. *)
Lemma render_attempt_no_command depth self out iv apply_filter drop min (st : State World) e :
  _generate_command self out iv apply_filter min = Raise e ->
  render_interval_rec (S depth) self out iv apply_filter drop min st = (Raise e, st).
Proof.
  intros Hc. cbn [render_interval_rec]. unfold bind, lift. now rewrite Hc.
Qed.

(** The method, one frame unfolded, in terms of the two tests on the output. *)
Lemma render_attempt depth self out iv apply_filter drop min (st : State World) cmd o w :
  _generate_command self out iv apply_filter min = Ok cmd ->
  subprocess_run cmd (world st) = (o, w) ->
  render_interval_rec (S depth) self out iv apply_filter drop min st =
  let st1 := after_run cmd w st in
  if reports_conversion_failure o then
    if drop then (Ok false, st1)
    else if apply_filter then
      match render_interval_rec depth self out iv false drop min st1 with
      | (Ok _, st2) =>
          if reports_filter_error o then (Raise invalid_options, st2) else (Ok true, st2)
      | (Raise e, st2) => (Raise e, st2)
      end
    else (Raise (IOError (corrupted_message iv)), st1)
  else if reports_filter_error o then (Raise invalid_options, st1) else (Ok true, st1).
Proof.
  intros Hc Hr. cbn [render_interval_rec]. unfold bind, lift, run_process.
  rewrite Hc, Hr, last_line_of_output.
  rewrite reports_conversion_failure_eq. unfold reports_filter_error, invalid_options.
  cbn zeta.
  destruct (contains "Conversion failed!" (str_of_bytes (stdout o))).
  - destruct drop; [reflexivity |].
    destruct apply_filter; [| reflexivity].
    unfold ret.
    destruct (render_interval_rec depth self out iv false false min (after_run cmd w st))
      as [[b | e] st2]; [| reflexivity].
    now destruct (contains "Error initializing complex filter" (str_of_bytes (stdout o))).
  - unfold ret, raise.
    now destruct (contains "Error initializing complex filter" (str_of_bytes (stdout o))).
Qed.

End RenderAttempt.

Section RenderInterval.

Context {World : Type} {SP : Subprocess World} {FT : FloatText}.

(** The raw command line can always be built. *)
Lemma raw_command_total self out iv min :
  exists cmd, _generate_command self out iv false min = Ok cmd.
Proof.
  unfold _generate_command. cbn. eexists. reflexivity.
Qed.

(** A raw attempt does not use the frame it has left. *)
Lemma raw_attempt_depth depth self out iv drop min (st : State World) :
  render_interval_rec (S depth) self out iv false drop min st =
  render_interval_rec 1 self out iv false drop min st.
Proof.
  destruct (raw_command_total self out iv min) as [cmd Hc].
  destruct (subprocess_run cmd (world st)) as [o w] eqn:Hr.
  rewrite (render_attempt depth _ _ _ _ _ _ _ _ _ _ Hc Hr).
  rewrite (render_attempt 0 _ _ _ _ _ _ _ _ _ _ Hc Hr).
  reflexivity.
Qed.

(** Two frames suffice: a deeper stack changes nothing. *)
Lemma render_interval_depth depth self out iv apply_filter drop min (st : State World) :
  render_interval_rec (S (S depth)) self out iv apply_filter drop min st =
  _render_interval self out iv apply_filter drop min st.
Proof.
  unfold _render_interval.
  destruct apply_filter; [| now rewrite raw_attempt_depth, (raw_attempt_depth 1)].
  destruct (_generate_command self out iv true min) as [cmd | e] eqn:Hc.
  - destruct (subprocess_run cmd (world st)) as [o w] eqn:Hr.
    rewrite (render_attempt (S depth) _ _ _ _ _ _ _ _ _ _ Hc Hr).
    rewrite (render_attempt 1 _ _ _ _ _ _ _ _ _ _ Hc Hr).
    cbn zeta. now rewrite raw_attempt_depth.
  - now rewrite !(render_attempt_no_command _ _ _ _ _ _ _ _ _ Hc).
Qed.

(** Building a command line fails on a division by zero and on nothing else. *)
Lemma generate_command_error self out iv apply_filter min e :
  _generate_command self out iv apply_filter min = Raise e -> e = ZeroDivisionError.
Proof.
  unfold _generate_command, complex_filter_stages, clamp_speed, video_stage, truediv,
    result_bind.
  destruct apply_filter; [| discriminate].
  destruct (PrimFloat.eqb _ 0); [now intros [= <-] |].
  destruct (PrimFloat.ltb _ min).
  - destruct (PrimFloat.eqb min 0); [now intros [= <-] |].
    destruct (negb _); [| discriminate].
    destruct (PrimFloat.eqb _ 0); [now intros [= <-] | discriminate].
  - destruct (negb _); [| discriminate].
    destruct (PrimFloat.eqb _ 0); [now intros [= <-] | discriminate].
Qed.

(** The method never runs out of frames. *)
Lemma render_interval_never_too_deep self out iv apply_filter drop min (st : State World) :
  fst (_render_interval self out iv apply_filter drop min st) <> Raise RecursionError.
Proof.
  assert (Hraw : forall st1 : State World,
             fst (render_interval_rec 1 self out iv false drop min st1)
             <> Raise RecursionError).
  { intros st1. destruct (raw_command_total self out iv min) as [cmd Hc].
    destruct (subprocess_run cmd (world st1)) as [o w] eqn:Hr.
    rewrite (render_attempt 0 _ _ _ _ _ _ _ _ _ _ Hc Hr). cbn zeta.
    destruct (reports_conversion_failure o); [destruct drop |];
      try destruct (reports_filter_error o); cbn; discriminate. }
  unfold _render_interval.
  destruct apply_filter; [| now rewrite raw_attempt_depth].
  destruct (_generate_command self out iv true min) as [cmd | e] eqn:Hc.
  - destruct (subprocess_run cmd (world st)) as [o w] eqn:Hr.
    rewrite (render_attempt 1 _ _ _ _ _ _ _ _ _ _ Hc Hr). cbn zeta.
    destruct (reports_conversion_failure o).
    + destruct drop; [cbn; discriminate |].
      specialize (Hraw (after_run cmd w st)).
      destruct (render_interval_rec 1 self out iv false false min (after_run cmd w st))
        as [[b | e] st2]; [| exact Hraw].
      destruct (reports_filter_error o); cbn; discriminate.
    + destruct (reports_filter_error o); cbn; discriminate.
  - rewrite (render_attempt_no_command _ _ _ _ _ _ _ _ _ Hc). cbn.
    rewrite (generate_command_error _ _ _ _ _ _ Hc). discriminate.
Qed.

(** Rendering touches neither the lock nor the queue nor the exit flag, and
    only adds engine runs to the trace. *)
Lemma render_interval_frame depth self out iv apply_filter drop min (st : State World) :
  let '(_, st') := render_interval_rec depth self out iv apply_filter drop min st in
  lock_held st' = lock_held st /\ task_queue st' = task_queue st
  /\ _should_exit st' = _should_exit st
  /\ exists evs, trace st' = (trace st ++ evs)%list /\ forallb is_run evs = true.
Proof.
  revert apply_filter st. induction depth as [|depth IH]; intros apply_filter st.
  - cbn. repeat split. exists []. now rewrite app_nil_r.
  - destruct (_generate_command self out iv apply_filter min) as [cmd | e] eqn:Hc.
    + destruct (subprocess_run cmd (world st)) as [o w] eqn:Hr.
      rewrite (render_attempt depth _ _ _ _ _ _ _ _ _ _ Hc Hr). cbn zeta.
      assert (Hone : lock_held (after_run cmd w st) = lock_held st
                     /\ task_queue (after_run cmd w st) = task_queue st
                     /\ _should_exit (after_run cmd w st) = _should_exit st
                     /\ exists evs, trace (after_run cmd w st) = (trace st ++ evs)%list
                                    /\ forallb is_run evs = true).
      { repeat split. exists [Run cmd]. split; reflexivity. }
      destruct (reports_conversion_failure o).
      * destruct drop; [exact Hone |].
        destruct apply_filter; [| exact Hone].
        specialize (IH false (after_run cmd w st)).
        destruct (render_interval_rec depth self out iv false false min (after_run cmd w st))
          as [[b | e] st2].
        -- assert (Hst2 : lock_held st2 = lock_held st /\ task_queue st2 = task_queue st
                          /\ _should_exit st2 = _should_exit st
                          /\ exists evs, trace st2 = (trace st ++ evs)%list
                                         /\ forallb is_run evs = true).
           { destruct IH as (H1 & H2 & H3 & evs & H4 & H5). repeat split; auto.
             exists (Run cmd :: evs). split; [| exact H5].
             rewrite H4. cbn. now rewrite <- app_assoc. }
           now destruct (reports_filter_error o).
        -- destruct IH as (H1 & H2 & H3 & evs & H4 & H5). repeat split; auto.
           exists (Run cmd :: evs). split; [| exact H5].
           rewrite H4. cbn. now rewrite <- app_assoc.
      * now destruct (reports_filter_error o).
    + rewrite (render_attempt_no_command _ _ _ _ _ _ _ _ _ Hc).
      repeat split. exists []. now rewrite app_nil_r.
Qed.

End RenderInterval.

(** ** The retry policy of [_render_interval] *)

Section RetryPolicy.

Context {World : Type} {SP : Subprocess World} {FT : FloatText}.

(** C1 (as amended).  When the filtered attempt reports a conversion failure
    and dropping is disabled, the raw command is run, once, right after the
    filtered one and nothing else is run.  If the raw attempt reports a
    conversion failure too, [IOError] is raised with a message that holds the
    text of the start and of the end of the interval.  If the raw attempt
    reports neither failure, the method returns [True], unless the output of
    the filtered attempt also held the filter-configuration marker: then the
    configuration error is raised after the retry. *)
Theorem raw_retry_after_conversion_failure
    self out iv min (st : State World) fcmd fo w1 :
  _generate_command self out iv true min = Ok fcmd ->
  subprocess_run fcmd (world st) = (fo, w1) ->
  reports_conversion_failure fo = true ->
  exists rcmd ro w2,
    _generate_command self out iv false min = Ok rcmd
    /\ subprocess_run rcmd w1 = (ro, w2)
    /\ let '(res, st') := _render_interval self out iv true false min st in
       st' = after_run rcmd w2 (after_run fcmd w1 st)
       /\ trace st' = (trace st ++ [Run fcmd; Run rcmd])%list
       /\ (reports_conversion_failure ro = true ->
           res = Raise (IOError (corrupted_message iv)))
       /\ (reports_conversion_failure ro = false -> reports_filter_error ro = false ->
           res = if reports_filter_error fo then Raise invalid_options else Ok true)
       /\ contains (str_float (start iv)) (corrupted_message iv) = true
       /\ contains (str_float (end_ iv)) (corrupted_message iv) = true.
Proof.
  intros Hf Hrun Hconv.
  destruct (raw_command_total self out iv min) as [rcmd Hraw].
  destruct (subprocess_run rcmd w1) as [ro w2] eqn:Hrun2.
  exists rcmd, ro, w2. split; [exact Hraw |]. split; [exact Hrun2 |].
  unfold _render_interval.
  rewrite (render_attempt 1 _ _ _ _ _ _ _ _ _ _ Hf Hrun). cbn zeta. rewrite Hconv.
  assert (Hrun2' : subprocess_run rcmd (world (after_run fcmd w1 st)) = (ro, w2))
    by exact Hrun2.
  rewrite (render_attempt 0 _ _ _ _ _ _ _ _ _ _ Hraw Hrun2'). cbn zeta.
  assert (Htrace : trace (after_run rcmd w2 (after_run fcmd w1 st))
                   = (trace st ++ [Run fcmd; Run rcmd])%list).
  { cbn. now rewrite <- app_assoc. }
  assert (Hstart : contains (str_float (start iv)) (corrupted_message iv) = true).
  { unfold corrupted_message. apply contains_app. }
  assert (Hend : contains (str_float (end_ iv)) (corrupted_message iv) = true).
  { unfold corrupted_message.
    rewrite <- (append_assoc (str_float (start iv)) " and "),
            <- (append_assoc "Input file is corrupted between ").
    apply contains_app. }
  destruct (reports_conversion_failure ro).
  - repeat split; auto; discriminate.
  - destruct (reports_filter_error ro).
    + repeat split; auto; discriminate.
    + destruct (reports_filter_error fo); repeat split; auto; discriminate.
Qed.

(** C2 (as amended).  An attempt, filtered or raw, whose output holds the
    filter-configuration marker and does not report a conversion failure
    raises [ValueError], whatever [drop_corrupted_intervals] is, and runs
    nothing more; the same holds when that attempt is the raw retry of a
    filtered attempt.  (When the conversion-failure marker is there as well,
    that test comes first.) *)
Theorem filter_error_without_conversion_failure_is_fatal
    self out iv min (st : State World) :
  (forall apply_filter drop cmd o w,
      _generate_command self out iv apply_filter min = Ok cmd ->
      subprocess_run cmd (world st) = (o, w) ->
      reports_filter_error o = true ->
      reports_conversion_failure o = false ->
      _render_interval self out iv apply_filter drop min st
      = (Raise invalid_options, after_run cmd w st))
  /\ (forall fcmd fo w1 rcmd ro w2,
      _generate_command self out iv true min = Ok fcmd ->
      subprocess_run fcmd (world st) = (fo, w1) ->
      reports_conversion_failure fo = true ->
      _generate_command self out iv false min = Ok rcmd ->
      subprocess_run rcmd w1 = (ro, w2) ->
      reports_filter_error ro = true ->
      reports_conversion_failure ro = false ->
      _render_interval self out iv true false min st
      = (Raise invalid_options, after_run rcmd w2 (after_run fcmd w1 st))).
Proof.
  split.
  - intros apply_filter drop cmd o w Hc Hr Hfe Hcf. unfold _render_interval.
    rewrite (render_attempt 1 _ _ _ _ _ _ _ _ _ _ Hc Hr). cbn zeta.
    now rewrite Hcf, Hfe.
  - intros fcmd fo w1 rcmd ro w2 Hf Hr1 Hcf1 Hraw Hr2 Hfe2 Hcf2. unfold _render_interval.
    rewrite (render_attempt 1 _ _ _ _ _ _ _ _ _ _ Hf Hr1). cbn zeta. rewrite Hcf1.
    assert (Hr2' : subprocess_run rcmd (world (after_run fcmd w1 st)) = (ro, w2))
      by exact Hr2.
    rewrite (render_attempt 0 _ _ _ _ _ _ _ _ _ _ Hraw Hr2'). cbn zeta.
    now rewrite Hcf2, Hfe2.
Qed.

End RetryPolicy.

Import Scenario.

(** C1, the claim as first stated, fails: the filtered output holds both
    markers, dropping is off, the raw attempt succeeds, and the outcome is
    the configuration error, not success. *)
Lemma raw_success_after_both_markers_is_not_success :
  reports_conversion_failure both_markers = true
  /\ reports_conversion_failure fine = false
  /\ reports_filter_error fine = false
  /\ _render_interval (worker false false) "out_0.mp4" silent_second true false 0.25%float
       (idle [] [both_markers; fine])
     = (Raise invalid_options,
        {| world := []; task_queue := []; lock_held := false; _should_exit := false;
           trace := [Run filtered_command; Run raw_command] |})
  /\ Raise invalid_options <> Ok true.
Proof.
  repeat split; try (vm_compute; reflexivity). discriminate.
Qed.

Lemma raw_retry_after_conversion_failure_witness :
  exists rcmd ro w2,
    _generate_command (worker false false) "out_0.mp4" silent_second false 0.25%float = Ok rcmd
    /\ subprocess_run rcmd [conversion_failed] = (ro, w2)
    /\ let '(res, st') :=
         _render_interval (worker false false) "out_0.mp4" silent_second true false 0.25%float
           (idle [] [conversion_failed; conversion_failed]) in
       st' = after_run rcmd w2
               (after_run filtered_command [conversion_failed]
                  (idle [] [conversion_failed; conversion_failed]))
       /\ trace st' = ([] ++ [Run filtered_command; Run rcmd])%list
       /\ (reports_conversion_failure ro = true ->
           res = Raise (IOError (corrupted_message silent_second)))
       /\ (reports_conversion_failure ro = false -> reports_filter_error ro = false ->
           res = if reports_filter_error conversion_failed
                 then Raise invalid_options else Ok true)
       /\ contains (str_float (start silent_second)) (corrupted_message silent_second) = true
       /\ contains (str_float (end_ silent_second)) (corrupted_message silent_second) = true.
Proof.
  apply (raw_retry_after_conversion_failure (worker false false) "out_0.mp4" silent_second
           0.25%float (idle [] [conversion_failed; conversion_failed])
           filtered_command conversion_failed [conversion_failed]);
    vm_compute; reflexivity.
Defined.

(** C2, the claim as first stated, fails: the output of the filtered attempt
    holds the filter-configuration marker (and the conversion-failure marker),
    dropping is on, and the method returns [False] without raising. *)
Lemma filter_error_with_conversion_failure_is_dropped :
  reports_filter_error both_markers = true
  /\ _render_interval (worker true false) "out_0.mp4" silent_second true true 0.25%float
       (idle [] [both_markers])
     = (Ok false,
        {| world := []; task_queue := []; lock_held := false; _should_exit := false;
           trace := [Run filtered_command] |}).
Proof.
  split; vm_compute; reflexivity.
Qed.

Lemma filter_error_without_conversion_failure_is_fatal_witness :
  _render_interval (worker true false) "out_0.mp4" silent_second true true 0.25%float
    (idle [] [filter_failed])
  = (Raise invalid_options, after_run filtered_command [] (idle [] [filter_failed])).
Proof.
  apply (proj1 (filter_error_without_conversion_failure_is_fatal (worker true false)
                  "out_0.mp4" silent_second 0.25%float (idle [] [filter_failed]))
           true true filtered_command filter_failed []);
    vm_compute; reflexivity.
Defined.

(** ** One turn of the worker loop *)

Section Loop.

Context {World : Type} {SP : Subprocess World} {FT : FloatText}.

(** What a turn does when the queue is empty. *)
Lemma run_iteration_idle self (st : State World) :
  task_queue st = [] ->
  run_iteration self st = (Ok tt, taken [] st).
Proof.
  intros Hq. unfold run_iteration, bind, acquire, get_queue, release, log, taken. cbn.
  rewrite Hq. cbn. now rewrite <- app_assoc.
Qed.

(** What a turn does with the task at the head of the queue. *)
Lemma run_iteration_task self (st : State World) task rest :
  task_queue st = task :: rest ->
  run_iteration self st =
  let opts := _render_options self in
  match _render_interval self (interval_output_file task) (interval task) true
          (drop_corrupted_intervals opts) (minimum_interval_duration opts) (taken rest st) with
  | (Raise e, st1) => (Raise e, st1)
  | (Ok completed, st1) =>
      if completed && check_intervals opts then
        match start_error (probe_command task) (world st1) with
        | Some e => (Raise e, st1)
        | None =>
            let '(probe_output, w) := subprocess_run (probe_command task) (world st1) in
            let st2 := after_run (probe_command task) w st1 in
            if _on_task_completed self
            then (Ok tt,
                  log (Completed task (negb (Z.eqb (returncode probe_output) 0)) false) st2)
            else (Ok tt, st2)
        end
      else if _on_task_completed self
           then (Ok tt, log (Completed task (negb completed) false) st1)
           else (Ok tt, st1)
  end.
Proof.
  intros Hq. unfold run_iteration, bind, acquire, get_queue, release, set_queue.
  cbn -[_render_interval]. rewrite Hq. cbn -[_render_interval].
  replace (log Release _) with (taken rest st)
    by (unfold log, taken; cbn; now rewrite <- app_assoc).
  pose proof (render_interval_frame 2 self (interval_output_file task) (interval task) true
                (drop_corrupted_intervals (_render_options self))
                (minimum_interval_duration (_render_options self)) (taken rest st)) as Hframe.
  fold (@_render_interval World SP FT) in Hframe.
  destruct (_render_interval self (interval_output_file task) (interval task) true
              (drop_corrupted_intervals (_render_options self))
              (minimum_interval_duration (_render_options self)) (taken rest st))
    as [[completed | e] st1]; [| reflexivity].
  destruct Hframe as (Hlock & _). cbn in Hlock.
  destruct (completed && check_intervals (_render_options self)).
  - unfold run_probe, run_process, ret.
    destruct (start_error (probe_command task) (world st1)) as [e |]; [reflexivity |].
    destruct (subprocess_run (probe_command task) (world st1)) as [probe_output w].
    destruct (_on_task_completed self); [| reflexivity].
    unfold on_task_completed. cbn. now rewrite Hlock.
  - unfold ret. destruct (_on_task_completed self); [| reflexivity].
    unfold on_task_completed. now rewrite Hlock.
Qed.

End Loop.

Section Outcomes.

Context {World : Type} {SP : Subprocess World} {FT : FloatText}.

(** C5.  A filtered attempt that reports a conversion failure while
    [drop_corrupted_intervals] is set makes [_render_interval] return [False]
    after that single run: no raw command is run, nothing is raised, no probe
    is run.  The callback, when there is one, is called with [failed = True],
    and the loop goes on to its next turn. *)
Theorem conversion_failure_with_drop_is_soft
    self (st : State World) task rest fcmd fo w1 :
  drop_corrupted_intervals (_render_options self) = true ->
  task_queue st = task :: rest ->
  _generate_command self (interval_output_file task) (interval task) true
    (minimum_interval_duration (_render_options self)) = Ok fcmd ->
  subprocess_run fcmd (world st) = (fo, w1) ->
  reports_conversion_failure fo = true ->
  let st1 := after_run fcmd w1 (taken rest st) in
  let st' := if _on_task_completed self then log (Completed task true false) st1 else st1 in
  _render_interval self (interval_output_file task) (interval task) true true
    (minimum_interval_duration (_render_options self)) (taken rest st) = (Ok false, st1)
  /\ run_iteration self st = (Ok tt, st')
  /\ trace st' = (trace st ++ [Acquire; Release; Run fcmd]
                  ++ (if _on_task_completed self then [Completed task true false] else []))%list
  /\ task_queue st' = rest
  /\ lock_held st' = false
  /\ (forall turns, _should_exit st = false -> run (S turns) self st = run turns self st').
Proof.
  intros Hdrop Hq Hc Hr Hcf st1 st'.
  assert (Hr' : subprocess_run fcmd (world (taken rest st)) = (fo, w1)) by exact Hr.
  assert (Hrender :
    _render_interval self (interval_output_file task) (interval task) true true
      (minimum_interval_duration (_render_options self)) (taken rest st) = (Ok false, st1)).
  { unfold _render_interval.
    rewrite (render_attempt 1 _ _ _ _ _ _ _ _ _ _ Hc Hr'). cbn zeta. now rewrite Hcf. }
  assert (Hturn : run_iteration self st = (Ok tt, st')).
  { rewrite (run_iteration_task self st task rest Hq). cbn zeta.
    rewrite Hdrop, Hrender. cbn [andb]. subst st'.
    now destruct (_on_task_completed self). }
  split; [exact Hrender |]. split; [exact Hturn |].
  split; [| split; [| split]].
  - subst st' st1. destruct (_on_task_completed self); cbn; now rewrite <- !app_assoc.
  - subst st' st1. now destruct (_on_task_completed self).
  - subst st' st1. now destruct (_on_task_completed self).
  - intros turns Hexit. cbn [run]. rewrite Hexit. unfold bind. now rewrite Hturn.
Qed.

Lemma completed_tasks_app evs1 evs2 :
  completed_tasks (evs1 ++ evs2) = (completed_tasks evs1 ++ completed_tasks evs2)%list.
Proof.
  induction evs1 as [|[| | cmd | task failed locked] evs1 IH]; cbn; auto.
  now rewrite IH.
Qed.

Lemma completed_tasks_runs runs : forallb is_run runs = true -> completed_tasks runs = [].
Proof.
  induction runs as [|[| | cmd | task failed locked] runs IH]; cbn; auto; discriminate.
Qed.

Lemma callbacks_unlocked_runs runs : forallb is_run runs = true -> callbacks_unlocked runs = true.
Proof.
  unfold callbacks_unlocked.
  induction runs as [|[| | cmd | task failed locked] runs IH]; cbn; auto; discriminate.
Qed.

(** A turn that takes a task: it returns, with one call of the callback,
    exactly when [_render_interval] returned and the probe, where one is
    due, could be started; otherwise the exception of the render or of the
    start of the probe leaves the turn and no callback is made. *)
Lemma turn_reports_task self (st : State World) task rest :
  task_queue st = task :: rest ->
  _on_task_completed self = true ->
  let '(r, st1) :=
    _render_interval self (interval_output_file task) (interval task) true
      (drop_corrupted_intervals (_render_options self))
      (minimum_interval_duration (_render_options self)) (taken rest st) in
  let '(res, st') := run_iteration self st in
  exists runs,
    forallb is_run runs = true
    /\ task_queue st' = rest
    /\ _should_exit st' = _should_exit st
    /\ match res with
       | Ok _ =>
           (exists completed,
               r = Ok completed
               /\ (completed && check_intervals (_render_options self) = true ->
                   start_error (probe_command task) (world st1) = None))
           /\ exists failed,
               trace st' = (trace st ++ [Acquire; Release] ++ runs
                            ++ [Completed task failed false])%list
       | Raise e =>
           (r = Raise e
            \/ (r = Ok true
                /\ check_intervals (_render_options self) = true
                /\ start_error (probe_command task) (world st1) = Some e))
           /\ trace st' = (trace st ++ [Acquire; Release] ++ runs)%list
       end.
Proof.
  intros Hq Hcb.
  rewrite (run_iteration_task self st task rest Hq). cbn zeta. rewrite Hcb.
  pose proof (render_interval_frame 2 self (interval_output_file task) (interval task) true
                (drop_corrupted_intervals (_render_options self))
                (minimum_interval_duration (_render_options self)) (taken rest st)) as Hframe.
  fold (@_render_interval World SP FT) in Hframe.
  destruct (_render_interval self (interval_output_file task) (interval task) true
              (drop_corrupted_intervals (_render_options self))
              (minimum_interval_duration (_render_options self)) (taken rest st))
    as [[completed | e] st1];
    destruct Hframe as (_ & Hqueue & Hexit & evs & Htr & Hevs);
    cbn [trace task_queue _should_exit taken] in Htr, Hqueue, Hexit.
  - destruct (completed && check_intervals (_render_options self)) eqn:Hprobe.
    + destruct (start_error (probe_command task) (world st1)) as [e |] eqn:Hstart.
      * apply andb_true_iff in Hprobe. destruct Hprobe as [-> Hcheck].
        exists evs. split; [exact Hevs |]. repeat split; auto.
        rewrite Htr. now rewrite <- !app_assoc.
      * destruct (subprocess_run (probe_command task) (world st1)) as [probe_output w].
        exists (evs ++ [Run (probe_command task)])%list. split.
        -- rewrite forallb_app, Hevs. reflexivity.
        -- repeat split; auto.
           ++ exists completed. split; [reflexivity | auto].
           ++ exists (negb (Z.eqb (returncode probe_output) 0)). cbn. rewrite Htr.
              now rewrite <- !app_assoc.
    + exists evs. split; [exact Hevs |]. repeat split; auto.
      * exists completed. split; [reflexivity |].
        intros H. rewrite Hprobe in H. discriminate.
      * exists (negb completed). cbn. rewrite Htr. now rewrite <- !app_assoc.
  - exists evs. split; [exact Hevs |]. repeat split; auto.
    rewrite Htr. now rewrite <- !app_assoc.
Qed.

(** Over any number of turns: the callbacks made are, in order, for the
    tasks at the front of the queue, one call per task, none with the lock
    held; a run that ends in an exception has left out the one task it had
    taken last. *)
Lemma run_reports_tasks self turns :
  _on_task_completed self = true ->
  forall st : State World,
  let '(res, st') := run turns self st in
  exists evs,
    trace st' = (trace st ++ evs)%list
    /\ callbacks_unlocked evs = true
    /\ match res with
       | Ok _ => task_queue st = (completed_tasks evs ++ task_queue st')%list
       | Raise _ =>
           exists task, task_queue st = (completed_tasks evs ++ task :: task_queue st')%list
       end.
Proof.
  intros Hcb. induction turns as [|turns IH]; intros st.
  - cbn. destruct (_should_exit st); exists []; now rewrite app_nil_r.
  - cbn [run]. destruct (_should_exit st) eqn:Hexit.
    + exists []. now rewrite app_nil_r.
    + unfold bind. destruct (task_queue st) as [|task rest] eqn:Hq.
      * rewrite (run_iteration_idle self st Hq).
        specialize (IH (taken [] st)).
        destruct (run turns self (taken [] st)) as [res st'].
        destruct IH as (evs & Htr & Hun & Hres). cbn [trace task_queue taken] in Htr, Hres.
        exists ([Acquire; Release] ++ evs)%list. split.
        { rewrite Htr. now rewrite <- !app_assoc. }
        split; [exact Hun |].
        exact Hres.
      * pose proof (turn_reports_task self st task rest Hq Hcb) as Hturn.
        destruct (_render_interval self (interval_output_file task) (interval task) true
                    (drop_corrupted_intervals (_render_options self))
                    (minimum_interval_duration (_render_options self)) (taken rest st))
          as [r st0].
        destruct (run_iteration self st) as [res1 st1].
        destruct Hturn as (runs & Hruns & Hrest & _ & Hr).
        destruct res1 as [[] | e].
        -- destruct Hr as (_ & failed & Htr1).
           specialize (IH st1). destruct (run turns self st1) as [res st'].
           destruct IH as (evs & Htr & Hun & Hres).
           exists ([Acquire; Release] ++ runs ++ [Completed task failed false] ++ evs)%list.
           split; [rewrite Htr, Htr1; now rewrite <- !app_assoc |].
           split.
           ++ unfold callbacks_unlocked in *. cbn [app forallb andb].
              rewrite forallb_app. fold (callbacks_unlocked runs).
              rewrite (callbacks_unlocked_runs runs Hruns). cbn. exact Hun.
           ++ cbn [app completed_tasks].
              rewrite completed_tasks_app, (completed_tasks_runs runs Hruns).
              cbn [app completed_tasks]. rewrite Hrest in Hres.
              destruct res as [v | e].
              ** now rewrite Hres.
              ** destruct Hres as (task' & Hres). exists task'. now rewrite Hres.
        -- destruct Hr as (_ & Htr1).
           exists ([Acquire; Release] ++ runs)%list.
           split; [exact Htr1 |]. split.
           ++ unfold callbacks_unlocked. cbn [app forallb andb].
              apply (callbacks_unlocked_runs runs Hruns).
           ++ exists task. cbn [app completed_tasks].
              rewrite (completed_tasks_runs runs Hruns). now rewrite Hrest.
Qed.

(** C3 (as amended).  With a completion callback configured, the worker
    calls it exactly once, with the task and with the queue lock released,
    for every task it takes, provided neither [_render_interval] nor the
    start of the probe raises; when [_render_interval] raises, or the probe
    is due and cannot be started, that exception leaves the loop and the
    callback is not called for that task.  The first part is about one turn,
    the second about the whole run. *)
Theorem callback_once_unless_render_raises self :
  _on_task_completed self = true ->
  (forall (st : State World) task rest,
      task_queue st = task :: rest ->
      let '(r, st1) :=
        _render_interval self (interval_output_file task) (interval task) true
          (drop_corrupted_intervals (_render_options self))
          (minimum_interval_duration (_render_options self)) (taken rest st) in
      let '(res, st') := run_iteration self st in
      exists runs,
        forallb is_run runs = true
        /\ match res with
           | Ok _ =>
               (exists completed,
                   r = Ok completed
                   /\ (completed && check_intervals (_render_options self) = true ->
                       start_error (probe_command task) (world st1) = None))
               /\ exists failed,
                   trace st' = (trace st ++ [Acquire; Release] ++ runs
                                ++ [Completed task failed false])%list
           | Raise e =>
               (r = Raise e
                \/ (r = Ok true
                    /\ check_intervals (_render_options self) = true
                    /\ start_error (probe_command task) (world st1) = Some e))
               /\ trace st' = (trace st ++ [Acquire; Release] ++ runs)%list
           end)
  /\ (forall turns (st : State World),
      let '(res, st') := run turns self st in
      exists evs,
        trace st' = (trace st ++ evs)%list
        /\ callbacks_unlocked evs = true
        /\ match res with
           | Ok _ => task_queue st = (completed_tasks evs ++ task_queue st')%list
           | Raise _ =>
               exists task,
                 task_queue st = (completed_tasks evs ++ task :: task_queue st')%list
           end).
Proof.
  intros Hcb. split.
  - intros st task rest Hq.
    pose proof (turn_reports_task self st task rest Hq Hcb) as Hturn.
    destruct (_render_interval self (interval_output_file task) (interval task) true
                (drop_corrupted_intervals (_render_options self))
                (minimum_interval_duration (_render_options self)) (taken rest st))
      as [r st0].
    destruct (run_iteration self st) as [res st'].
    destruct Hturn as (runs & Hruns & _ & _ & Hr).
    exists runs. split; [exact Hruns | exact Hr].
  - intros turns st. exact (run_reports_tasks self turns Hcb st).
Qed.

(** C6.  With [check_intervals] set and a callback configured: the probe
    is run exactly when [_render_interval] returned [True]; it is then the
    last thing run, and the callback gets [failed = True] exactly when the
    exit code of the probe is not zero.  A task whose render returned [False]
    is reported as failed with no probe, and a render that raised runs none.
    A probe that cannot be started exits with no code: the exception of
    [subprocess.run] leaves the turn and nothing is reported. *)
Theorem probe_decides_outcome self (st : State World) task rest r st1 :
  check_intervals (_render_options self) = true ->
  _on_task_completed self = true ->
  task_queue st = task :: rest ->
  _render_interval self (interval_output_file task) (interval task) true
    (drop_corrupted_intervals (_render_options self))
    (minimum_interval_duration (_render_options self)) (taken rest st) = (r, st1) ->
  match r with
  | Ok true =>
      match start_error (probe_command task) (world st1) with
      | Some e => run_iteration self st = (Raise e, st1)
      | None =>
          let '(probe_output, w) := subprocess_run (probe_command task) (world st1) in
          let failed := negb (Z.eqb (returncode probe_output) 0) in
          run_iteration self st
          = (Ok tt, log (Completed task failed false) (after_run (probe_command task) w st1))
          /\ (failed = true <-> returncode probe_output <> 0%Z)
      end
  | Ok false => run_iteration self st = (Ok tt, log (Completed task true false) st1)
  | Raise e => run_iteration self st = (Raise e, st1)
  end.
Proof.
  intros Hcheck Hcb Hq Hrender.
  rewrite (run_iteration_task self st task rest Hq). cbn zeta.
  rewrite Hrender, Hcheck, Hcb.
  destruct r as [[|] | e]; cbn [andb negb]; try reflexivity.
  destruct (start_error (probe_command task) (world st1)) as [e |]; [reflexivity |].
  destruct (subprocess_run (probe_command task) (world st1)) as [probe_output w].
  split; [reflexivity |].
  rewrite negb_true_iff. split.
  - intros H. now apply Z.eqb_neq.
  - intros H. now apply Z.eqb_neq.
Qed.

End Outcomes.

Lemma conversion_failure_with_drop_is_soft_witness :
  run_iteration (worker true true) (idle [task0] [conversion_failed])
  = (Ok tt,
     {| world := []; task_queue := []; lock_held := false; _should_exit := false;
        trace := [Acquire; Release; Run filtered_command; Completed task0 true false] |}).
Proof.
  refine (proj1 (proj2
            (conversion_failure_with_drop_is_soft (worker true true)
               (idle [task0] [conversion_failed]) task0 [] filtered_command
               conversion_failed [] _ _ _ _ _)));
    vm_compute; reflexivity.
Defined.

(** C3, the claim as first stated, fails: the worker takes the task, the
    engine reports a filter-configuration error, [ValueError] leaves the turn
    and the trace holds no call of the callback. *)
Lemma no_callback_after_fatal_failure :
  _on_task_completed (worker false false) = true
  /\ run_iteration (worker false false) (idle [task0] [filter_failed])
     = (Raise invalid_options,
        {| world := []; task_queue := []; lock_held := false; _should_exit := false;
           trace := [Acquire; Release; Run filtered_command] |})
  /\ completed_tasks [Acquire; Release; Run filtered_command] = [].
Proof.
  repeat split; vm_compute; reflexivity.
Qed.

Lemma callback_once_unless_render_raises_witness :
  let '(res, st') :=
    run 3 (worker false true)
      (idle [task0; task0] [conversion_failed; fine; probe_rejects; fine; quiet_exit]) in
  exists evs,
    trace st' = ([] ++ evs)%list
    /\ callbacks_unlocked evs = true
    /\ match res with
       | Ok _ => [task0; task0] = (completed_tasks evs ++ task_queue st')%list
       | Raise _ =>
           exists task, [task0; task0] = (completed_tasks evs ++ task :: task_queue st')%list
       end.
Proof.
  apply (proj2 (callback_once_unless_render_raises (worker false true) eq_refl) 3
           (idle [task0; task0] [conversion_failed; fine; probe_rejects; fine; quiet_exit])).
Defined.

Lemma probe_decides_outcome_witness :
  run_iteration (worker false true) (idle [task0] [fine; probe_rejects])
  = (Ok tt,
     log (Completed task0 true false)
       (after_run (probe_command task0) []
          (after_run filtered_command [probe_rejects]
             (taken [] (idle [task0] [fine; probe_rejects])))))
  /\ (true = true <-> 1%Z <> 0%Z).
Proof.
  refine (probe_decides_outcome (worker false true) (idle [task0] [fine; probe_rejects])
            task0 [] (Ok true)
            (after_run filtered_command [probe_rejects]
               (taken [] (idle [task0] [fine; probe_rejects]))) _ _ _ _);
    vm_compute; reflexivity.
Defined.

(** On a host without the probe, a task whose render succeeded is never
    reported: the worker dies on the start of [ffprobe]. *)
Example probe_that_cannot_start :
  run_iteration (worker false true)
    (idle_without_probe [task0] [fine])
  = (Raise no_ffprobe,
     {| world := probe_missing []; task_queue := []; lock_held := false;
        _should_exit := false;
        trace := [Acquire; Release; Run filtered_command] |}).
Proof. vm_compute. reflexivity. Qed.

(** ** The speed clamp *)

Lemma positive_is_not_zero (x : float) :
  PrimFloat.ltb 0 x = true -> PrimFloat.eqb x 0 = false.
Proof.
  rewrite ltb_spec, eqb_spec.
  change (Prim2SF 0) with (S754_zero false).
  destruct (Prim2SF x) as [s | s | | s m e]; cbn; try discriminate;
    destruct s; cbn; intros H; try discriminate; reflexivity.
Qed.

(** C4.  For a positive duration, speed and minimum duration, [clamp_speed]
    raises nothing and returns [duration / min_duration] when
    [duration / speed < min_duration], and the speed itself otherwise; and
    [clamp_speed(1.0, 10.0, 0.25)] is [4.0], [clamp_speed(1.0, 2.0, 0.25)]
    is [2.0]. *)
Theorem clamp_speed_cases (duration speed min_duration : float) :
  PrimFloat.ltb 0 duration = true ->
  PrimFloat.ltb 0 speed = true ->
  PrimFloat.ltb 0 min_duration = true ->
  clamp_speed duration speed min_duration
  = Ok (if PrimFloat.ltb (duration / speed) min_duration
        then (duration / min_duration)%float
        else speed)
  /\ clamp_speed 1 10 0.25 = Ok 4%float
  /\ clamp_speed 1 2 0.25 = Ok 2%float.
Proof.
  intros _ Hs Hm. split; [| split; reflexivity].
  unfold clamp_speed, truediv, result_bind.
  rewrite (positive_is_not_zero speed Hs), (positive_is_not_zero min_duration Hm).
  now destruct (PrimFloat.ltb (duration / speed) min_duration).
Qed.

Lemma clamp_speed_cases_witness :
  clamp_speed 1 6 0.25
  = Ok (if PrimFloat.ltb (1 / 6) 0.25 then (1 / 0.25)%float else 6%float)
  /\ clamp_speed 1 10 0.25 = Ok 4%float
  /\ clamp_speed 1 2 0.25 = Ok 2%float.
Proof.
  apply (clamp_speed_cases 1 6 0.25); reflexivity.
Defined.

(** ** The command line *)

Section CommandLine.

Context {FT : FloatText}.

(** The clamp, when no division of the filtered path fails. *)
Lemma clamp_speed_when_built opts iv min :
  divides_by_zero opts iv min = false ->
  clamp_speed (duration iv) (tagged_speed opts iv) min = Ok (clamped_speed opts iv min).
Proof.
  unfold divides_by_zero, clamped_speed, clamp_speed, truediv, result_bind.
  destruct (PrimFloat.eqb (tagged_speed opts iv) 0); [discriminate |].
  destruct (PrimFloat.ltb (duration iv / tagged_speed opts iv) min); [| reflexivity].
  destruct (PrimFloat.eqb min 0); [discriminate | reflexivity].
Qed.

(** The stages of the filtered path are built exactly when no division
    meets a zero. *)
Lemma complex_filter_stages_cases opts iv fade min :
  complex_filter_stages opts iv fade min =
  if divides_by_zero opts iv min then Raise ZeroDivisionError
  else Ok ((if audio_only opts
            then []
            else [("[0:v]setpts="
                   ++ str_float (round4 (1 / clamped_speed opts iv min)) ++ "*PTS[v]")%string])
           ++ [audio_stage (if negb (is_empty fade) then (fade ++ ",")%string else fade)
                 (clamped_speed opts iv min)
                 (if is_silent iv then silent_volume opts else audible_volume opts)])%list.
Proof.
  unfold complex_filter_stages, divides_by_zero, clamped_speed, clamp_speed, video_stage,
    truediv, result_bind, tagged_speed.
  set (speed := if is_silent iv then silent_speed opts else audible_speed opts).
  destruct (PrimFloat.eqb speed 0) eqn:Hs; [reflexivity |].
  destruct (PrimFloat.ltb (duration iv / speed) min).
  - destruct (PrimFloat.eqb min 0); [reflexivity |].
    destruct (audio_only opts); [reflexivity |]. cbn [negb orb andb].
    now destruct (PrimFloat.eqb (duration iv / min) 0).
  - destruct (audio_only opts); [reflexivity |]. cbn [negb orb andb].
    now rewrite Hs.
Qed.

(** C8.  A command line is built for the raw path always, and for the
    filtered path exactly when no division meets a zero (then
    [ZeroDivisionError] is raised instead).  Every command line that is
    built starts with the engine, the trim arguments [-ss start -to end] and
    the input; the filter arguments ([-filter_complex] with its graph, or
    [-af] with the fades) come after them and after the sync flags. *)
Theorem trim_arguments_come_first self out iv apply_filter min :
  let opts := _render_options self in
  let fade :=
    _get_fade_filter (duration iv) (interval_in_fade_duration opts)
      (interval_out_fade_duration opts) (fade_curve opts) in
  (apply_filter && divides_by_zero opts iv min = true ->
   _generate_command self out iv apply_filter min = Raise ZeroDivisionError)
  /\ (apply_filter && divides_by_zero opts iv min = false ->
      exists cmd filter_args rest,
        _generate_command self out iv apply_filter min = Ok cmd
        /\ cmd = (["ffmpeg"; "-ss"; str_float (start iv); "-to"; str_float (end_ iv);
                   "-i"; _input_file self]
                  ++ ["-vsync"; "1"; "-async"; "1"; "-safe"; "0"; "-ignore_unknown"; "-y"]
                  ++ filter_args ++ rest ++ [out])%list
        /\ if apply_filter
           then (exists graph, filter_args = ["-filter_complex"; graph])
                /\ rest = ((if audio_only opts then [] else ["-map"; "[v]"])
                           ++ ["-map"; "[a]"])%list
           else filter_args = (if is_empty fade then [] else ["-af"; fade])
                /\ rest = (if audio_only opts then ["-vn"] else [])).
Proof.
  cbn zeta. unfold _generate_command. destruct apply_filter; cbn [andb].
  - rewrite complex_filter_stages_cases.
    destruct (divides_by_zero (_render_options self) iv min).
    + split; [reflexivity | discriminate].
    + split; [discriminate |]. intros _. cbn [result_bind].
      destruct (audio_only (_render_options self)); cbn;
        eexists _, _, _; (split; [reflexivity |]);
        (split; [| split; [eexists; reflexivity | reflexivity]]); reflexivity.
  - split; [discriminate |]. intros _. cbn.
    destruct (is_empty _); destruct (audio_only (_render_options self)); cbn;
      eexists _, _, _; (split; [reflexivity |]);
      (split; [| split; reflexivity]); reflexivity.
Qed.

(** The fades, as [_generate_command] glues them to the tempo stage. *)
Lemma fade_prefix opts iv :
  let fade :=
    _get_fade_filter (duration iv) (interval_in_fade_duration opts)
      (interval_out_fade_duration opts) (fade_curve opts) in
  (if negb (is_empty fade) then fade ++ "," else fade) = spec_fades opts iv.
Proof.
  cbn zeta. unfold _get_fade_filter, spec_fades, fade_in_stage, fade_out_stage.
  destruct (float_ne (interval_in_fade_duration opts) 0);
    destruct (float_ne (interval_out_fade_duration opts) 0);
    flatten_strings; reflexivity.
Qed.

(** C7.  The filtered command line is built exactly when no division
    meets a zero ([ZeroDivisionError] is raised otherwise).  When it is
    built it carries, right after the sync flags, [-filter_complex] and a
    graph that is the one the specification words: speed and volume are
    those of the tag of the interval ([silent_speed], [silent_volume] when
    [is_silent], the audible ones otherwise), the speed clamped; the video
    stage, scaled by the inverse of the clamped speed, is there exactly when
    [audio_only] is false; the fade-in from time 0 and the fade-out from
    [duration - interval_out_fade_duration] stand before the tempo stage. *)
Theorem filter_graph_follows_interval_tag self out iv min :
  let opts := _render_options self in
  let speed := if is_silent iv then silent_speed opts else audible_speed opts in
  let clamped := clamped_speed opts iv min in
  let fade :=
    _get_fade_filter (duration iv) (interval_in_fade_duration opts)
      (interval_out_fade_duration opts) (fade_curve opts) in
  (divides_by_zero opts iv min = true ->
   _generate_command self out iv true min = Raise ZeroDivisionError)
  /\ (divides_by_zero opts iv min = false ->
      exists cmd,
        _generate_command self out iv true min = Ok cmd
        /\ clamp_speed (duration iv) speed min = Ok clamped
        /\ complex_filter_stages opts iv fade min
           = Ok ((if audio_only opts then [] else [spec_video_stage clamped])
                 ++ [spec_audio_stage opts iv clamped])%list
        /\ nth_error cmd 15 = Some "-filter_complex"
        /\ nth_error cmd 16 = Some (spec_filter_graph opts iv clamped)).
Proof.
  cbn zeta. unfold _generate_command. rewrite complex_filter_stages_cases.
  rewrite (fade_prefix (_render_options self) iv).
  destruct (divides_by_zero (_render_options self) iv min) eqn:Hz.
  - split; [reflexivity | discriminate].
  - split; [discriminate |]. intros _. cbn [result_bind].
    fold (spec_audio_stage (_render_options self) iv
            (clamped_speed (_render_options self) iv min)).
    fold (spec_video_stage (clamped_speed (_render_options self) iv min)).
    eexists. split; [reflexivity |].
    split; [exact (clamp_speed_when_built _ _ _ Hz) |].
    split; [reflexivity |].
    unfold spec_filter_graph.
    destruct (audio_only (_render_options self)); cbn [negb]; split; try reflexivity.
    unfold spec_video_stage, spec_audio_stage.
    flatten_strings; reflexivity.
Qed.

End CommandLine.

Lemma trim_arguments_come_first_witness :
  (exists cmd filter_args rest,
      _generate_command (worker false false) "out_0.mp4" silent_second true 0.25%float = Ok cmd
      /\ cmd = (["ffmpeg"; "-ss"; "1.0"; "-to"; "2.0"; "-i"; "in.mp4"]
                ++ ["-vsync"; "1"; "-async"; "1"; "-safe"; "0"; "-ignore_unknown"; "-y"]
                ++ filter_args ++ rest ++ ["out_0.mp4"])%list
      /\ (exists graph, filter_args = ["-filter_complex"; graph])
      /\ rest = ["-map"; "[v]"; "-map"; "[a]"])
  /\ (exists cmd filter_args rest,
      _generate_command (worker false false) "out_0.mp4" silent_second false 0.25%float = Ok cmd
      /\ cmd = (["ffmpeg"; "-ss"; "1.0"; "-to"; "2.0"; "-i"; "in.mp4"]
                ++ ["-vsync"; "1"; "-async"; "1"; "-safe"; "0"; "-ignore_unknown"; "-y"]
                ++ filter_args ++ rest ++ ["out_0.mp4"])%list
      /\ filter_args = []
      /\ rest = []).
Proof.
  split.
  - refine (proj2 (trim_arguments_come_first (worker false false) "out_0.mp4" silent_second
                     true 0.25%float) _).
    reflexivity.
  - refine (proj2 (trim_arguments_come_first (worker false false) "out_0.mp4" silent_second
                     false 0.25%float) _).
    reflexivity.
Defined.

Lemma filter_graph_follows_interval_tag_witness :
  exists cmd,
    _generate_command (worker false false) "out_0.mp4" silent_second true 0.25%float = Ok cmd
    /\ clamp_speed (duration silent_second) 6 0.25 = Ok 4%float
    /\ complex_filter_stages (options false false) silent_second EmptyString 0.25%float
       = Ok ["[0:v]setpts=0.25*PTS[v]"; "[0:a]atempo=4.0,volume=0.5[a]"]
    /\ nth_error cmd 15 = Some "-filter_complex"
    /\ nth_error cmd 16 = Some "[0:v]setpts=0.25*PTS[v];[0:a]atempo=4.0,volume=0.5[a]".
Proof.
  refine (proj2 (filter_graph_follows_interval_tag (worker false false) "out_0.mp4"
                   silent_second 0.25%float) _).
  reflexivity.
Defined.

Example filtered_command_example :
  _generate_command (worker false false) "out_0.mp4" silent_second true 0.25%float
  = Ok filtered_command.
Proof. reflexivity. Qed.

Example raw_command_example :
  _generate_command (worker false false) "out_0.mp4" silent_second false 0.25%float
  = Ok raw_command.
Proof. reflexivity. Qed.

(** ** The session facade *)

Section Session.

Context {Intervals Kwargs TimeInfo : Type} {C : Unsilence.Collaborators Intervals Kwargs TimeInfo}.

(** C9.  With [_intervals] still [None], [estimate_time] and [render_media]
    raise [ValueError] and leave the process as it was: no collaborator is
    called, nothing is printed.  A new session starts with [None].  After
    [set_intervals], or after a [detect_silence] that returned, both hand over
    to their collaborator, whose outcome is the outcome of the call. *)
Theorem missing_intervals_precondition
    (self : Unsilence.t Intervals) (p : @Unsilence.Process Intervals Kwargs)
    audible_speed silent_speed output_file kwargs :
  (Unsilence._intervals self = None ->
   Unsilence.estimate_time self audible_speed silent_speed p
   = (Raise (ValueError Unsilence.missing_intervals), p)
   /\ Unsilence.render_media self output_file kwargs p
      = (Raise (ValueError Unsilence.missing_intervals), p))
  /\ (forall input_file temp_dir (self0 : Unsilence.t Intervals)
             (p0 p1 : @Unsilence.Process Intervals Kwargs),
         Unsilence.init input_file temp_dir p0 = (Ok self0, p1) ->
         Unsilence._intervals self0 = None)
  /\ (forall intervals,
         let self' := Unsilence.set_intervals self intervals in
         Unsilence.estimate_time self' audible_speed silent_speed p
         = (Unsilence.lib_calculate_time intervals audible_speed silent_speed,
            Unsilence.called
              (Unsilence.CallCalculateTime intervals audible_speed silent_speed) p)
         /\ Unsilence.render_media self' output_file kwargs p
            = (Unsilence.lib_render (Unsilence._temp_dir self) (Unsilence._input_file self)
                 output_file intervals kwargs,
               Unsilence.called
                 (Unsilence.CallRender (Unsilence._temp_dir self) (Unsilence._input_file self)
                    output_file intervals kwargs) p))
  /\ (forall detect_kwargs p0 intervals self',
         Unsilence.detect_silence self detect_kwargs p0 = (Ok (intervals, self'), p) ->
         Unsilence.estimate_time self' audible_speed silent_speed p
         = (Unsilence.lib_calculate_time intervals audible_speed silent_speed,
            Unsilence.called
              (Unsilence.CallCalculateTime intervals audible_speed silent_speed) p)
         /\ Unsilence.render_media self' output_file kwargs p
            = (Unsilence.lib_render (Unsilence._temp_dir self) (Unsilence._input_file self)
                 output_file intervals kwargs,
               Unsilence.called
                 (Unsilence.CallRender (Unsilence._temp_dir self) (Unsilence._input_file self)
                    output_file intervals kwargs) p)).
Proof.
  split; [| split; [| split]].
  - intros Hnone. unfold Unsilence.estimate_time, Unsilence.render_media.
    now rewrite Hnone.
  - intros input_file temp_dir self0 p0 p1.
    unfold Unsilence.init, Unsilence.pbind, Unsilence.is_ffmpeg_usable, Unsilence.praise,
      Unsilence.print_stderr, Unsilence.pret, Unsilence.atexit_register.
    destruct (String.eqb _ "not_detected"); [discriminate |].
    destruct (String.eqb _ "requirements_unsatisfied"); [discriminate |].
    destruct (String.eqb _ "unknown_version"); intros H; inversion H; reflexivity.
  - intros intervals. split; reflexivity.
  - intros detect_kwargs p0 intervals self'. unfold Unsilence.detect_silence.
    destruct (Unsilence.lib_detect_silence (Unsilence._input_file self) detect_kwargs);
      intros H; inversion H; subst. split; reflexivity.
Qed.

(** C10.  [__init__] raises exactly when [is_ffmpeg_usable()] answers
    [not_detected] or [requirements_unsatisfied], and what it raises is an
    [EnvironmentError]; nothing is printed or registered then.  With
    [unknown_version] the session is built, its cleanup registered, and the
    one thing printed to [stderr] is the warning. *)
Theorem init_raises_on_unusable_ffmpeg (input_file temp_dir : string)
    (p : @Unsilence.Process Intervals Kwargs) :
  let status := Unsilence.host_ffmpeg_status p in
  let new_session : Unsilence.t Intervals :=
    {| Unsilence._input_file := input_file; Unsilence._temp_dir := temp_dir;
       Unsilence._intervals := None |} in
  let '(res, p') := Unsilence.init input_file temp_dir p in
  ((exists e, res = Raise e) <-> status = "not_detected" \/ status = "requirements_unsatisfied")
  /\ (forall e, res = Raise e ->
        (exists msg, e = EnvironmentError msg)
        /\ Unsilence.stderr p' = Unsilence.stderr p
        /\ Unsilence.atexit_registered p' = Unsilence.atexit_registered p)
  /\ (status = "unknown_version" ->
        res = Ok new_session
        /\ Unsilence.stderr p' = (Unsilence.stderr p ++ [Unsilence.version_warning])%list
        /\ Unsilence.atexit_registered p'
           = (Unsilence.atexit_registered p ++ [temp_dir])%list)
  /\ (forall self, res = Ok self -> status <> "unknown_version" ->
        self = new_session /\ Unsilence.stderr p' = Unsilence.stderr p).
Proof.
  cbn zeta.
  unfold Unsilence.init, Unsilence.pbind, Unsilence.is_ffmpeg_usable, Unsilence.praise,
    Unsilence.print_stderr, Unsilence.pret, Unsilence.atexit_register.
  cbn [Unsilence.called Unsilence.host_ffmpeg_status].
  destruct (String.eqb_spec (Unsilence.host_ffmpeg_status p) "not_detected") as [E1 | N1].
  { rewrite E1. split; [split; [auto | eauto] |]. split.
    - intros e He. inversion He. split; [eauto | split; reflexivity].
    - split; [discriminate |]. intros self He. discriminate. }
  destruct (String.eqb_spec (Unsilence.host_ffmpeg_status p) "requirements_unsatisfied")
    as [E2 | N2].
  { rewrite E2. split; [split; [auto | eauto] |]. split.
    - intros e He. inversion He. split; [eauto | split; reflexivity].
    - split; [discriminate |]. intros self He. discriminate. }
  destruct (String.eqb_spec (Unsilence.host_ffmpeg_status p) "unknown_version") as [E3 | N3].
  - split.
    + split; [intros [e He]; discriminate | intros [H | H]; contradiction].
    + split; [intros e He; discriminate |].
      split; [intros _; repeat split; reflexivity |].
      intros self _ Hne. contradiction.
  - split.
    + split; [intros [e He]; discriminate | intros [H | H]; contradiction].
    + split; [intros e He; discriminate |].
      split; [intros H; contradiction |].
      intros self He _. inversion He. split; reflexivity.
Qed.

End Session.

Lemma missing_intervals_precondition_witness :
  Unsilence.estimate_time fresh_session 1 6 (host "ok")
  = (Raise (ValueError Unsilence.missing_intervals), host "ok")
  /\ Unsilence.render_media fresh_session "out.mp4" tt (host "ok")
     = (Raise (ValueError Unsilence.missing_intervals), host "ok").
Proof.
  apply (proj1 (missing_intervals_precondition fresh_session (host "ok") 1 6 "out.mp4" tt)).
  reflexivity.
Defined.

Lemma init_raises_on_unusable_ffmpeg_witness :
  fst (Unsilence.init "in.mp4" ".tmp" (host "unknown_version")) = Ok fresh_session
  /\ Unsilence.stderr (snd (Unsilence.init "in.mp4" ".tmp" (host "unknown_version")))
     = [Unsilence.version_warning]
  /\ Unsilence.atexit_registered (snd (Unsilence.init "in.mp4" ".tmp" (host "unknown_version")))
     = [".tmp"].
Proof.
  refine (proj1 (proj2 (proj2
            (init_raises_on_unusable_ffmpeg (Intervals := list Interval) (Kwargs := unit)
               "in.mp4" ".tmp" (host "unknown_version")))) _).
  reflexivity.
Defined.

(** ** The markers are looked for in the bytes of the output *)

Lemma contains_cons (needle hay : string) (c : ascii) :
  contains needle hay = true -> contains needle (String c hay) = true.
Proof.
  intros H. rewrite contains_unfold, H.
  now destruct (String.prefix needle (String c hay)).
Qed.

Lemma prefix_split (needle hay : string) :
  String.prefix needle hay = true -> exists rest, hay = needle ++ rest.
Proof.
  revert needle. induction hay as [|c hay IH]; intros [|a needle]; cbn.
  - now exists EmptyString.
  - discriminate.
  - now exists (String c hay).
  - destruct (ascii_dec a c) as [-> | _]; [| discriminate].
    intros H. destruct (IH _ H) as [rest ->]. now exists rest.
Qed.

Lemma contains_split (needle hay : string) :
  contains needle hay = true -> exists before rest, hay = before ++ needle ++ rest.
Proof.
  induction hay as [|c hay IH]; rewrite contains_unfold.
  - destruct (String.prefix needle EmptyString) eqn:Hp; [| discriminate].
    intros _. destruct (prefix_split _ _ Hp) as [rest Hrest].
    now exists EmptyString, rest.
  - destruct (String.prefix needle (String c hay)) eqn:Hp.
    + intros _. destruct (prefix_split _ _ Hp) as [rest Hrest].
      now exists EmptyString, rest.
    + intros H. destruct (IH H) as (before & rest & ->).
      now exists (String c before), rest.
Qed.

Lemma escape_bytes_app (quote : ascii) (a b : string) :
  escape_bytes quote (a ++ b) = escape_bytes quote a ++ escape_bytes quote b.
Proof.
  induction a as [|c a IH]; cbn; [reflexivity |].
  now rewrite IH, append_assoc.
Qed.

Lemma escape_byte_as_is (quote c : ascii) :
  quote = squote \/ quote = dquote ->
  written_as_is c = true ->
  escape_byte quote c = String c EmptyString.
Proof.
  intros [-> | ->];
    destruct c as [[|] [|] [|] [|] [|] [|] [|] [|]]; cbn; intros H;
    (reflexivity || discriminate H).
Qed.

Lemma escape_bytes_as_is (quote : ascii) (s : string) :
  quote = squote \/ quote = dquote ->
  all_bytes written_as_is s = true ->
  escape_bytes quote s = s.
Proof.
  intros Hq. induction s as [|c s IH]; cbn; [reflexivity |].
  intros H. apply andb_true_iff in H. destruct H as [Hc Hs].
  now rewrite (escape_byte_as_is _ _ Hq Hc), (IH Hs).
Qed.

(** A byte is written as it is, or as a backslash and characters of the
    escape alphabet. *)
Lemma escape_byte_shape (quote c : ascii) :
  quote = squote \/ quote = dquote ->
  escape_byte quote c = String c EmptyString
  \/ exists tail,
       escape_byte quote c = String backslash tail
       /\ all_bytes (fun x => negb (outside_escapes x)) tail = true.
Proof.
  intros [-> | ->];
    destruct c as [[|] [|] [|] [|] [|] [|] [|] [|]];
    first [ left; reflexivity | right; eexists; split; reflexivity ].
Qed.

Lemma quote_is_not_unquoted (quote c : ascii) :
  quote = squote \/ quote = dquote -> unquoted c = true -> c <> quote.
Proof.
  intros Hq Hc ->. unfold unquoted in Hc.
  destruct Hq as [-> | ->]; cbn in Hc; discriminate.
Qed.

Lemma backslash_is_not_unquoted (c : ascii) : unquoted c = true -> c <> backslash.
Proof.
  intros Hc ->. discriminate.
Qed.

Lemma written_as_is_unquoted (s : string) :
  all_bytes written_as_is s = true -> all_bytes unquoted s = true.
Proof.
  induction s as [|c s IH]; cbn; [reflexivity |].
  intros H. apply andb_true_iff in H. destruct H as [Hc Hs].
  unfold written_as_is in Hc. apply andb_true_iff in Hc. destruct Hc as [_ Hc].
  now rewrite Hc, (IH Hs).
Qed.

(** At the start of a byte, a needle without quotes and backslashes matches
    the text only where it matches the bytes. *)
Lemma prefix_of_escaped (quote : ascii) (b needle : string) :
  quote = squote \/ quote = dquote ->
  all_bytes unquoted needle = true ->
  String.prefix needle (escape_bytes quote b ++ String quote EmptyString) = true ->
  String.prefix needle b = true.
Proof.
  intros Hq. revert needle. induction b as [|x b IH]; intros [|c needle]; cbn [all_bytes];
    intros Hn; try reflexivity; apply andb_true_iff in Hn; destruct Hn as [Hc Hn].
  - cbn [escape_bytes append String.prefix].
    destruct (ascii_dec c quote) as [E | _]; [| discriminate].
    now elim (quote_is_not_unquoted _ _ Hq Hc).
  - cbn [escape_bytes]. destruct (escape_byte_shape quote x Hq) as [-> | (tail & -> & _)].
    + cbn [append String.prefix].
      destruct (ascii_dec c x) as [_ | _]; [| discriminate]. apply IH, Hn.
    + cbn [append String.prefix].
      destruct (ascii_dec c backslash) as [E | _]; [| discriminate].
      now elim (backslash_is_not_unquoted _ Hc).
Qed.

(** No match starts on a character of the escape alphabet. *)
Lemma contains_skips_escapes (c : ascii) (needle skipped rest : string) :
  outside_escapes c = true ->
  all_bytes (fun x => negb (outside_escapes x)) skipped = true ->
  contains (String c needle) (skipped ++ rest) = contains (String c needle) rest.
Proof.
  intros Hc. induction skipped as [|x skipped IH]; cbn [all_bytes append]; [reflexivity |].
  intros H. apply andb_true_iff in H. destruct H as [Hx Hs].
  rewrite contains_unfold. cbn [String.prefix].
  destruct (ascii_dec c x) as [-> | _]; [| exact (IH Hs)].
  rewrite Hc in Hx. discriminate.
Qed.

Lemma contains_in_escaped (quote c : ascii) (needle b : string) :
  quote = squote \/ quote = dquote ->
  outside_escapes c = true ->
  all_bytes unquoted (String c needle) = true ->
  contains (String c needle) (escape_bytes quote b ++ String quote EmptyString) = true ->
  contains (String c needle) b = true.
Proof.
  intros Hq Hc Hn. induction b as [|x b IH].
  - cbn [escape_bytes append]. rewrite contains_unfold. cbn [String.prefix].
    destruct (ascii_dec c quote) as [-> | _].
    + destruct Hq as [-> | ->]; discriminate Hc.
    + cbn. discriminate.
  - cbn [escape_bytes]. rewrite append_assoc.
    destruct (escape_byte_shape quote x Hq) as [E | (tail & E & Htail)].
    + rewrite contains_unfold.
      destruct (String.prefix (String c needle)
                  (escape_byte quote x ++ escape_bytes quote b ++ String quote EmptyString))
        eqn:Hp.
      * intros _. rewrite contains_unfold.
        rewrite <- append_assoc in Hp.
        change (escape_byte quote x ++ escape_bytes quote b)
          with (escape_bytes quote (String x b)) in Hp.
        now rewrite (prefix_of_escaped quote (String x b) _ Hq Hn Hp).
      * rewrite E. cbn [append]. intros H. apply contains_cons, IH, H.
    + rewrite E.
      change (String backslash tail ++ escape_bytes quote b ++ String quote EmptyString)
        with (String backslash (tail ++ escape_bytes quote b ++ String quote EmptyString)).
      rewrite contains_unfold. cbn [String.prefix].
      destruct (ascii_dec c backslash) as [-> | _]; [discriminate Hc |].
      rewrite (contains_skips_escapes c needle tail _ Hc Htail).
      intros H. apply contains_cons, IH, H.
Qed.

(** For a needle made of bytes written as they are, and that starts outside
    the escape alphabet, looking in [str(b)] is looking in [b]. *)
Lemma contains_in_text_of_bytes (c : ascii) (needle b : string) :
  outside_escapes c = true ->
  all_bytes written_as_is (String c needle) = true ->
  contains (String c needle) (str_of_bytes b) = contains (String c needle) b.
Proof.
  intros Hc Hn. unfold str_of_bytes.
  set (quote := if has_byte squote b && negb (has_byte dquote b) then dquote else squote).
  assert (Hq : quote = squote \/ quote = dquote).
  { subst quote. destruct (has_byte squote b && negb (has_byte dquote b)); auto. }
  change (String "b" (String quote (escape_bytes quote b ++ String quote EmptyString)))
    with (String "b" (String quote EmptyString)
          ++ (escape_bytes quote b ++ String quote EmptyString)).
  rewrite (contains_skips_escapes c needle _ _ Hc)
    by (destruct Hq as [-> | ->]; reflexivity).
  destruct (contains (String c needle) b) eqn:Hb.
  - destruct (contains_split _ _ Hb) as (before & rest & ->).
    rewrite !escape_bytes_app, (escape_bytes_as_is quote _ Hq Hn), !append_assoc.
    apply contains_app.
  - destruct (contains (String c needle) (escape_bytes quote b ++ String quote EmptyString))
      eqn:He; [| reflexivity].
    rewrite (contains_in_escaped quote c needle b Hq Hc (written_as_is_unquoted _ Hn) He) in Hb.
    discriminate.
Qed.

(** X1.  Both tests of [_render_interval] come down to a search in the bytes
    the engine wrote: the conversion-failure marker counts wherever it
    stands, not only in the last line. *)
Theorem markers_are_searched_in_the_bytes (out : CompletedProcess) :
  reports_conversion_failure out = contains "Conversion failed!" (stdout out)
  /\ reports_filter_error out = contains "Error initializing complex filter" (stdout out).
Proof.
  split.
  - rewrite reports_conversion_failure_eq.
    apply contains_in_text_of_bytes; reflexivity.
  - unfold reports_filter_error.
    apply contains_in_text_of_bytes; reflexivity.
Qed.

(** ** What [_render_interval] can do *)

Section RenderOutcomes.

Context {World : Type} {SP : Subprocess World} {FT : FloatText}.

(** The method in full, both attempts unfolded. *)
Lemma render_interval_filtered self out iv drop min (st : State World) fcmd fo w1 rcmd ro w2 :
  _generate_command self out iv true min = Ok fcmd ->
  subprocess_run fcmd (world st) = (fo, w1) ->
  _generate_command self out iv false min = Ok rcmd ->
  subprocess_run rcmd w1 = (ro, w2) ->
  _render_interval self out iv true drop min st =
  let st1 := after_run fcmd w1 st in
  let st2 := after_run rcmd w2 st1 in
  if reports_conversion_failure fo then
    if drop then (Ok false, st1)
    else if reports_conversion_failure ro then (Raise (IOError (corrupted_message iv)), st2)
    else if reports_filter_error ro then (Raise invalid_options, st2)
    else if reports_filter_error fo then (Raise invalid_options, st2)
    else (Ok true, st2)
  else if reports_filter_error fo then (Raise invalid_options, st1)
  else (Ok true, st1).
Proof.
  intros Hf Hr1 Hraw Hr2. unfold _render_interval.
  rewrite (render_attempt 1 _ _ _ _ _ _ _ _ _ _ Hf Hr1). cbn zeta.
  destruct (reports_conversion_failure fo); [| reflexivity].
  destruct drop; [reflexivity |].
  assert (Hr2' : subprocess_run rcmd (world (after_run fcmd w1 st)) = (ro, w2)) by exact Hr2.
  rewrite (render_attempt 0 _ _ _ _ _ _ _ _ _ _ Hraw Hr2'). cbn zeta.
  destruct (reports_conversion_failure ro); [reflexivity |].
  now destruct (reports_filter_error ro).
Qed.

Lemma render_interval_raw self out iv drop min (st : State World) rcmd ro w :
  _generate_command self out iv false min = Ok rcmd ->
  subprocess_run rcmd (world st) = (ro, w) ->
  _render_interval self out iv false drop min st =
  let st1 := after_run rcmd w st in
  if reports_conversion_failure ro then
    if drop then (Ok false, st1) else (Raise (IOError (corrupted_message iv)), st1)
  else if reports_filter_error ro then (Raise invalid_options, st1)
  else (Ok true, st1).
Proof.
  intros Hraw Hr. unfold _render_interval.
  now rewrite (render_attempt 1 _ _ _ _ _ _ _ _ _ _ Hraw Hr).
Qed.

(** X2.  [_render_interval] returns [False] only when dropping is enabled;
    it raises nothing but [ZeroDivisionError] (from building the filtered
    command line, before anything is run), [IOError] about the interval
    (only with dropping disabled) and [ValueError] about the render options. *)
Theorem render_interval_outcomes self out iv apply_filter drop min (st : State World) :
  let '(res, st') := _render_interval self out iv apply_filter drop min st in
  match res with
  | Ok true => True
  | Ok false => drop = true
  | Raise e =>
      (e = ZeroDivisionError /\ apply_filter = true /\ st' = st)
      \/ (e = IOError (corrupted_message iv) /\ drop = false)
      \/ e = invalid_options
  end.
Proof.
  destruct (raw_command_total self out iv min) as [rcmd Hraw].
  destruct apply_filter.
  - destruct (_generate_command self out iv true min) as [fcmd | e] eqn:Hf.
    + destruct (subprocess_run fcmd (world st)) as [fo w1] eqn:Hr1.
      destruct (subprocess_run rcmd w1) as [ro w2] eqn:Hr2.
      rewrite (render_interval_filtered _ _ _ _ _ _ _ _ _ _ _ _ Hf Hr1 Hraw Hr2). cbn zeta.
      destruct (reports_conversion_failure fo); [destruct drop |];
        repeat match goal with
               | |- context [if ?b then _ else _] => destruct b
               end; auto.
    + unfold _render_interval. rewrite (render_attempt_no_command _ _ _ _ _ _ _ _ _ Hf).
      left. now rewrite (generate_command_error _ _ _ _ _ _ Hf).
  - destruct (subprocess_run rcmd (world st)) as [ro w] eqn:Hr.
    rewrite (render_interval_raw _ _ _ _ _ _ _ _ _ Hraw Hr). cbn zeta.
    destruct (reports_conversion_failure ro); [destruct drop |];
      repeat match goal with
             | |- context [if ?b then _ else _] => destruct b
             end; auto.
Qed.

(** X3.  One call of [_render_interval] runs the engine at most twice: not
    at all when the command line cannot be built, exactly once for a raw
    attempt, and at most once when dropping is enabled. *)
Theorem render_interval_runs_the_engine_at_most_twice
    self out iv apply_filter drop min (st : State World) :
  let '(_, st') := _render_interval self out iv apply_filter drop min st in
  exists runs,
    trace st' = (trace st ++ runs)%list
    /\ forallb is_run runs = true
    /\ List.length runs <= 2
    /\ (apply_filter = false -> List.length runs = 1)
    /\ (drop = true -> List.length runs <= 1)
    /\ (is_ok_command (_generate_command self out iv apply_filter min) = false ->
        runs = []).
Proof.
  destruct (raw_command_total self out iv min) as [rcmd Hraw].
  destruct apply_filter.
  - destruct (_generate_command self out iv true min) as [fcmd | e] eqn:Hf.
    + destruct (subprocess_run fcmd (world st)) as [fo w1] eqn:Hr1.
      destruct (subprocess_run rcmd w1) as [ro w2] eqn:Hr2.
      rewrite (render_interval_filtered _ _ _ _ _ _ _ _ _ _ _ _ Hf Hr1 Hraw Hr2). cbn zeta.
      assert (Hone : exists runs,
                 trace (after_run fcmd w1 st) = (trace st ++ runs)%list
                 /\ forallb is_run runs = true /\ List.length runs <= 2
                 /\ (true = false -> List.length runs = 1) /\ (drop = true -> List.length runs <= 1)
                 /\ (is_ok_command (Ok fcmd) = false -> runs = [])).
      { exists [Run fcmd]. cbn. repeat split; auto; discriminate. }
      assert (Htwo : drop = false -> exists runs,
                 trace (after_run rcmd w2 (after_run fcmd w1 st)) = (trace st ++ runs)%list
                 /\ forallb is_run runs = true /\ List.length runs <= 2
                 /\ (true = false -> List.length runs = 1) /\ (drop = true -> List.length runs <= 1)
                 /\ (is_ok_command (Ok fcmd) = false -> runs = [])).
      { intros ->. exists [Run fcmd; Run rcmd]. cbn. rewrite <- app_assoc.
        repeat split; auto; discriminate. }
      destruct (reports_conversion_failure fo); [destruct drop |];
        repeat match goal with
               | |- context [if ?b then _ else _] => destruct b
               end; auto.
    + unfold _render_interval. rewrite (render_attempt_no_command _ _ _ _ _ _ _ _ _ Hf).
      exists []. rewrite app_nil_r. cbn. repeat split; auto; discriminate.
  - destruct (subprocess_run rcmd (world st)) as [ro w] eqn:Hr.
    rewrite (render_interval_raw _ _ _ _ _ _ _ _ _ Hraw Hr). cbn zeta. rewrite Hraw.
    assert (Hone : exists runs,
               trace (after_run rcmd w st) = (trace st ++ runs)%list
               /\ forallb is_run runs = true /\ List.length runs <= 2
               /\ (false = false -> List.length runs = 1) /\ (drop = true -> List.length runs <= 1)
               /\ (is_ok_command (Ok rcmd) = false -> runs = [])).
    { exists [Run rcmd]. cbn. repeat split; auto; discriminate. }
    destruct (reports_conversion_failure ro); [destruct drop |];
      repeat match goal with
             | |- context [if ?b then _ else _] => destruct b
             end; auto.
Qed.

End RenderOutcomes.

(** ** When the command line cannot be built *)

Lemma float_zero_cases (x : float) :
  PrimFloat.eqb x 0 = true -> exists s, Prim2SF x = S754_zero s.
Proof.
  rewrite eqb_spec. change (Prim2SF 0) with (S754_zero false).
  destruct (Prim2SF x) as [s | s | | s m e]; cbn; try discriminate.
  - intros _. now exists s.
  - destruct s; discriminate.
  - destruct s; discriminate.
Qed.

Lemma float_positive_cases (x : float) :
  PrimFloat.ltb 0 x = true ->
  Prim2SF x = S754_infinity false \/ exists m e, Prim2SF x = S754_finite false m e.
Proof.
  rewrite ltb_spec. change (Prim2SF 0) with (S754_zero false).
  destruct (Prim2SF x) as [s | s | | s m e]; cbn; try discriminate;
    destruct s; try discriminate; intros _; [now left | right; now exists m, e].
Qed.

Lemma zero_over_positive (d s : float) :
  PrimFloat.eqb d 0 = true -> PrimFloat.ltb 0 s = true ->
  PrimFloat.eqb (d / s) 0 = true.
Proof.
  intros Hd Hs. destruct (float_zero_cases d Hd) as [sd Ed].
  rewrite eqb_spec, div_spec, Ed. change (Prim2SF 0) with (S754_zero false).
  destruct (float_positive_cases s Hs) as [-> | (m & e & ->)]; reflexivity.
Qed.

Lemma zero_below_positive (z m : float) :
  PrimFloat.eqb z 0 = true -> PrimFloat.ltb 0 m = true -> PrimFloat.ltb z m = true.
Proof.
  intros Hz Hm. destruct (float_zero_cases z Hz) as [sz Ez].
  rewrite ltb_spec, Ez.
  destruct (float_positive_cases m Hm) as [-> | (mm & e & ->)]; reflexivity.
Qed.

Section CommandErrors.

Context {World : Type} {SP : Subprocess World} {FT : FloatText}.

(** X4.  The filtered command line fails to build exactly when a division
    meets a zero: the speed of the interval's tag is zero, or the speed must
    be clamped and the minimum duration is zero, or video is kept and the
    clamped speed is zero.  The raw command line is always built. *)
Theorem filtered_command_fails_exactly_on_a_zero_divisor self out iv min :
  let opts := _render_options self in
  let speed := if is_silent iv then silent_speed opts else audible_speed opts in
  let clamps := PrimFloat.ltb (duration iv / speed) min in
  let clamped := if clamps then (duration iv / min)%float else speed in
  (is_ok_command (_generate_command self out iv true min) = false
   <-> PrimFloat.eqb speed 0 = true
       \/ (clamps = true /\ PrimFloat.eqb min 0 = true)
       \/ (audio_only opts = false /\ PrimFloat.eqb clamped 0 = true))
  /\ is_ok_command (_generate_command self out iv false min) = true.
Proof.
  cbn zeta. split.
  - unfold _generate_command, complex_filter_stages, clamp_speed, video_stage, truediv,
      result_bind.
    set (speed := if is_silent iv then silent_speed (_render_options self)
                  else audible_speed (_render_options self)).
    destruct (PrimFloat.eqb speed 0) eqn:Hs; [cbn; split; auto |].
    destruct (PrimFloat.ltb (duration iv / speed) min) eqn:Hc.
    + destruct (PrimFloat.eqb min 0) eqn:Hm; [cbn; split; auto |].
      destruct (audio_only (_render_options self)); cbn [negb].
      * cbn. split; [discriminate |].
        intros [H | [[_ H] | [H _]]]; discriminate.
      * destruct (PrimFloat.eqb (duration iv / min) 0); cbn.
        -- split; auto.
        -- split; [discriminate |].
           intros [H | [[_ H] | [_ H]]]; discriminate.
    + destruct (audio_only (_render_options self)); cbn [negb].
      * cbn. split; [discriminate |].
        intros [H | [[H _] | [H _]]]; discriminate.
      * rewrite Hs. cbn. split; [discriminate |].
        intros [H | [[H _] | [_ H]]]; discriminate.
  - destruct (raw_command_total self out iv min) as [cmd ->]. reflexivity.
Qed.

(** X5.  An interval of duration zero, with a positive speed and a positive
    minimum duration: the clamp gives the speed zero, so with video kept the
    filtered command line fails on [1 / 0] and [_render_interval] raises
    [ZeroDivisionError] before anything is run; with [audio_only] the
    command line is built. *)
Theorem zero_length_interval_divides_by_zero self out iv min drop (st : State World) :
  let opts := _render_options self in
  let speed := if is_silent iv then silent_speed opts else audible_speed opts in
  PrimFloat.eqb (duration iv) 0 = true ->
  PrimFloat.ltb 0 speed = true ->
  PrimFloat.ltb 0 min = true ->
  clamp_speed (duration iv) speed min = Ok (duration iv / min)%float
  /\ PrimFloat.eqb (duration iv / min) 0 = true
  /\ (audio_only opts = false ->
      _generate_command self out iv true min = Raise ZeroDivisionError
      /\ _render_interval self out iv true drop min st = (Raise ZeroDivisionError, st))
  /\ (audio_only opts = true ->
      is_ok_command (_generate_command self out iv true min) = true).
Proof.
  cbn zeta.
  set (speed := if is_silent iv then silent_speed (_render_options self)
                else audible_speed (_render_options self)).
  intros Hd Hs Hm.
  assert (Hclamp : clamp_speed (duration iv) speed min = Ok (duration iv / min)%float).
  { unfold clamp_speed, truediv, result_bind.
    rewrite (positive_is_not_zero speed Hs), (positive_is_not_zero min Hm).
    now rewrite (zero_below_positive _ min (zero_over_positive _ speed Hd Hs) Hm). }
  assert (Hzero : PrimFloat.eqb (duration iv / min) 0 = true)
    by exact (zero_over_positive _ min Hd Hm).
  split; [exact Hclamp |]. split; [exact Hzero |]. split.
  - intros Hvideo.
    assert (Hcmd : _generate_command self out iv true min = Raise ZeroDivisionError).
    { unfold _generate_command, complex_filter_stages. fold speed.
      rewrite Hclamp, Hvideo. cbn [result_bind negb]. unfold video_stage, truediv.
      now rewrite Hzero. }
    split; [exact Hcmd |].
    unfold _render_interval. apply render_attempt_no_command, Hcmd.
  - intros Haudio. unfold _generate_command, complex_filter_stages. fold speed.
    now rewrite Hclamp, Haudio.
Qed.

(** X6.  The raw command line: trim, input and sync flags; then [-af] with
    the fades exactly when a fade duration differs from zero; then [-vn]
    exactly with [audio_only]; then the output file. *)
Theorem raw_command_shape self out iv min :
  let opts := _render_options self in
  let fade :=
    _get_fade_filter (duration iv) (interval_in_fade_duration opts)
      (interval_out_fade_duration opts) (fade_curve opts) in
  let fades :=
    float_ne (interval_in_fade_duration opts) 0 || float_ne (interval_out_fade_duration opts) 0 in
  is_empty fade = negb fades
  /\ _generate_command self out iv false min
     = Ok (["ffmpeg"; "-ss"; str_float (start iv); "-to"; str_float (end_ iv);
            "-i"; _input_file self;
            "-vsync"; "1"; "-async"; "1"; "-safe"; "0"; "-ignore_unknown"; "-y"]
           ++ (if fades then ["-af"; fade] else [])
           ++ (if audio_only opts then ["-vn"] else [])
           ++ [out])%list.
Proof.
  cbn zeta.
  assert (Hempty :
    is_empty (_get_fade_filter (duration iv) (interval_in_fade_duration (_render_options self))
                (interval_out_fade_duration (_render_options self))
                (fade_curve (_render_options self)))
    = negb (float_ne (interval_in_fade_duration (_render_options self)) 0
            || float_ne (interval_out_fade_duration (_render_options self)) 0)).
  { unfold _get_fade_filter, fade_in_stage, fade_out_stage.
    destruct (float_ne (interval_in_fade_duration (_render_options self)) 0);
      destruct (float_ne (interval_out_fade_duration (_render_options self)) 0);
      reflexivity. }
  split; [exact Hempty |].
  unfold _generate_command. cbn [result_bind]. rewrite Hempty, negb_involutive.
  destruct (float_ne (interval_in_fade_duration (_render_options self)) 0
            || float_ne (interval_out_fade_duration (_render_options self)) 0);
    destruct (audio_only (_render_options self)); reflexivity.
Qed.

(** X7.  The raw command line does not look at the speeds, the volumes, the
    tag of the interval, the minimum duration or the fault-tolerance
    options: two workers and intervals that agree on the input, the bounds,
    the fades and [audio_only] get the same raw command line. *)
Theorem raw_command_ignores_speed_and_volume self self' out iv iv' min min' :
  _input_file self = _input_file self' ->
  start iv = start iv' ->
  end_ iv = end_ iv' ->
  audio_only (_render_options self) = audio_only (_render_options self') ->
  interval_in_fade_duration (_render_options self)
  = interval_in_fade_duration (_render_options self') ->
  interval_out_fade_duration (_render_options self)
  = interval_out_fade_duration (_render_options self') ->
  fade_curve (_render_options self) = fade_curve (_render_options self') ->
  _generate_command self out iv false min = _generate_command self' out iv' false min'.
Proof.
  intros Hin Hs He Ha Hfi Hfo Hc.
  unfold _generate_command, duration. cbn [result_bind].
  now rewrite Hin, Hs, He, Ha, Hfi, Hfo, Hc.
Qed.

End CommandErrors.

(** ** The worker loop *)

Lemma runs_are_unlocked_work runs : forallb is_run runs = true -> unlocked_work runs = true.
Proof.
  unfold unlocked_work.
  induction runs as [|[| | cmd | task failed locked] runs IH]; cbn; auto; discriminate.
Qed.

Lemma unlocked_work_app evs1 evs2 :
  unlocked_work (evs1 ++ evs2) = unlocked_work evs1 && unlocked_work evs2.
Proof.
  unfold unlocked_work. apply forallb_app.
Qed.

Lemma replay_unlocked_work work rest :
  unlocked_work work = true ->
  replay_lock false (work ++ rest) = replay_lock false rest.
Proof.
  unfold unlocked_work.
  induction work as [|[| | cmd | task failed locked] work IH]; cbn; auto; try discriminate.
  intros H. apply andb_true_iff in H. destruct H as [Hl Hw].
  apply negb_true_iff in Hl. rewrite Hl. auto.
Qed.

Lemma skipn_tl {A} n (l : list A) : skipn n (tl l) = skipn (S n) l.
Proof.
  destruct l; cbn; [now destruct n | reflexivity].
Qed.

Section WorkerLoop.

Context {World : Type} {SP : Subprocess World} {FT : FloatText}.

(** Every command line that is built is one for the engine. *)
Lemma generate_command_program self out iv apply_filter min cmd :
  _generate_command self out iv apply_filter min = Ok cmd ->
  exists args, cmd = "ffmpeg" :: args.
Proof.
  unfold _generate_command.
  destruct apply_filter.
  - destruct (complex_filter_stages _ _ _ _) as [stages | e]; cbn; [| discriminate].
    destruct (negb _); intros [= <-]; eexists; reflexivity.
  - cbn. destruct (negb _); destruct (audio_only _); intros [= <-]; eexists; reflexivity.
Qed.

Lemma render_interval_runs_engine self out iv apply_filter drop min (st : State World) :
  let '(_, st') := _render_interval self out iv apply_filter drop min st in
  exists runs,
    trace st' = (trace st ++ runs)%list
    /\ forallb is_run runs = true
    /\ forallb (engine_or_probe false) runs = true.
Proof.
  destruct (raw_command_total self out iv min) as [rcmd Hraw].
  destruct (generate_command_program _ _ _ _ _ _ Hraw) as [rargs Er].
  destruct apply_filter.
  - destruct (_generate_command self out iv true min) as [fcmd | e] eqn:Hf.
    + destruct (generate_command_program _ _ _ _ _ _ Hf) as [fargs Ef].
      destruct (subprocess_run fcmd (world st)) as [fo w1] eqn:Hr1.
      destruct (subprocess_run rcmd w1) as [ro w2] eqn:Hr2.
      rewrite (render_interval_filtered _ _ _ _ _ _ _ _ _ _ _ _ Hf Hr1 Hraw Hr2). cbn zeta.
      assert (Hone : exists runs,
                 trace (after_run fcmd w1 st) = (trace st ++ runs)%list
                 /\ forallb is_run runs = true
                 /\ forallb (engine_or_probe false) runs = true).
      { exists [Run fcmd]. subst fcmd. repeat split. }
      assert (Htwo : exists runs,
                 trace (after_run rcmd w2 (after_run fcmd w1 st)) = (trace st ++ runs)%list
                 /\ forallb is_run runs = true
                 /\ forallb (engine_or_probe false) runs = true).
      { exists [Run fcmd; Run rcmd]. subst fcmd rcmd. cbn. rewrite <- app_assoc.
        repeat split. }
      repeat match goal with
             | |- context [if ?b then _ else _] => destruct b
             end; auto.
    + unfold _render_interval. rewrite (render_attempt_no_command _ _ _ _ _ _ _ _ _ Hf).
      exists []. rewrite app_nil_r. repeat split.
  - destruct (subprocess_run rcmd (world st)) as [ro w] eqn:Hr.
    rewrite (render_interval_raw _ _ _ _ _ _ _ _ _ Hraw Hr). cbn zeta.
    assert (Hone : exists runs,
               trace (after_run rcmd w st) = (trace st ++ runs)%list
               /\ forallb is_run runs = true
               /\ forallb (engine_or_probe false) runs = true).
    { exists [Run rcmd]. subst rcmd. repeat split. }
    repeat match goal with
           | |- context [if ?b then _ else _] => destruct b
           end; auto.
Qed.

Lemma engine_or_probe_weaken check runs :
  forallb (engine_or_probe false) runs = true -> forallb (engine_or_probe check) runs = true.
Proof.
  induction runs as [|e runs IH]; cbn; [reflexivity |].
  intros H. apply andb_true_iff in H. destruct H as [He Hr]. rewrite (IH Hr), andb_true_r.
  destruct e as [| | [|program args] | task failed locked]; cbn in *; auto.
  rewrite orb_false_r in He. now rewrite He.
Qed.

(** One turn, whatever the queue holds and whether or not there is a
    callback. *)
Lemma turn_trace self (st : State World) :
  let '(res, st') := run_iteration self st in
  exists work,
    trace st' = (trace st ++ [Acquire; Release] ++ work)%list
    /\ unlocked_work work = true
    /\ forallb (engine_or_probe (check_intervals (_render_options self))) work = true
    /\ lock_held st' = false
    /\ _should_exit st' = _should_exit st
    /\ task_queue st' = tl (task_queue st)
    /\ (task_queue st = [] -> work = [] /\ res = Ok tt /\ world st' = world st).
Proof.
  destruct (task_queue st) as [|task rest] eqn:Hq.
  - rewrite (run_iteration_idle self st Hq). exists []. cbn. repeat split.
  - rewrite (run_iteration_task self st task rest Hq). cbn zeta.
    pose proof (render_interval_frame 2 self (interval_output_file task) (interval task) true
                  (drop_corrupted_intervals (_render_options self))
                  (minimum_interval_duration (_render_options self)) (taken rest st)) as Hframe.
    pose proof (render_interval_runs_engine self (interval_output_file task) (interval task)
                  true (drop_corrupted_intervals (_render_options self))
                  (minimum_interval_duration (_render_options self)) (taken rest st)) as Hengine.
    fold (@_render_interval World SP FT) in Hframe.
    destruct (_render_interval self (interval_output_file task) (interval task) true
                (drop_corrupted_intervals (_render_options self))
                (minimum_interval_duration (_render_options self)) (taken rest st))
      as [[completed | e] st1];
      destruct Hframe as (Hlock & Hqueue & Hexit & _);
      destruct Hengine as (runs & Htr & Hruns & Heng);
      cbn [trace lock_held task_queue _should_exit taken] in Htr, Hlock, Hqueue, Hexit.
    + destruct (completed && check_intervals (_render_options self)) eqn:Hprobe.
      * apply andb_true_iff in Hprobe. destruct Hprobe as [_ Hcheck].
        destruct (start_error (probe_command task) (world st1)) as [e |];
          [exists runs; rewrite Htr, <- !app_assoc; split; [reflexivity |];
           rewrite (runs_are_unlocked_work _ Hruns), (engine_or_probe_weaken _ _ Heng);
           repeat split; auto; discriminate |].
        destruct (subprocess_run (probe_command task) (world st1)) as [probe_output w].
        destruct (_on_task_completed self).
        -- exists (runs ++ [Run (probe_command task);
                            Completed task (negb (Z.eqb (returncode probe_output) 0)) false])%list.
           cbn. rewrite Htr, <- !app_assoc. split; [reflexivity |].
           rewrite unlocked_work_app, (runs_are_unlocked_work _ Hruns).
           rewrite forallb_app, (engine_or_probe_weaken _ _ Heng), Hcheck.
           repeat split; auto; discriminate.
        -- exists (runs ++ [Run (probe_command task)])%list.
           cbn. rewrite Htr, <- !app_assoc. split; [reflexivity |].
           rewrite unlocked_work_app, (runs_are_unlocked_work _ Hruns).
           rewrite forallb_app, (engine_or_probe_weaken _ _ Heng), Hcheck.
           repeat split; auto; discriminate.
      * destruct (_on_task_completed self).
        -- exists (runs ++ [Completed task (negb completed) false])%list.
           cbn. rewrite Htr, <- !app_assoc. split; [reflexivity |].
           rewrite unlocked_work_app, (runs_are_unlocked_work _ Hruns).
           rewrite forallb_app, (engine_or_probe_weaken _ _ Heng).
           repeat split; auto; discriminate.
        -- exists runs. rewrite Htr, <- !app_assoc. split; [reflexivity |].
           rewrite (runs_are_unlocked_work _ Hruns), (engine_or_probe_weaken _ _ Heng).
           repeat split; auto; discriminate.
    + exists runs. rewrite Htr, <- !app_assoc. split; [reflexivity |].
      rewrite (runs_are_unlocked_work _ Hruns), (engine_or_probe_weaken _ _ Heng).
      repeat split; auto; discriminate.
Qed.

End WorkerLoop.

Section WorkerRuns.

Context {World : Type} {SP : Subprocess World} {FT : FloatText}.

(** X8.  A worker that starts with the lock free keeps the lock discipline
    over any number of turns: it acquires and releases in turn, runs
    processes and calls back only with the lock free, and the lock is free at
    the end, also when the run ends in an exception. *)
Theorem lock_is_free_outside_the_queue_access self turns (st : State World) :
  lock_held st = false ->
  let '(_, st') := run turns self st in
  exists evs,
    trace st' = (trace st ++ evs)%list
    /\ replay_lock false evs = Some false
    /\ lock_held st' = false.
Proof.
  revert st. induction turns as [|turns IH]; intros st Hfree.
  - cbn. destruct (_should_exit st); exists []; now rewrite app_nil_r.
  - cbn [run]. destruct (_should_exit st).
    + exists []. now rewrite app_nil_r.
    + unfold bind. pose proof (turn_trace self st) as Hturn.
      destruct (run_iteration self st) as [[[] | e] st1];
        destruct Hturn as (work & Htr & Hwork & _ & Hlock & _).
      * specialize (IH st1 Hlock). destruct (run turns self st1) as [res st'].
        destruct IH as (evs & Htr' & Hreplay & Hlock').
        exists ([Acquire; Release] ++ work ++ evs)%list.
        split; [rewrite Htr', Htr; now rewrite <- !app_assoc |].
        split; [| exact Hlock'].
        cbn [app replay_lock]. now rewrite (replay_unlocked_work _ _ Hwork).
      * exists ([Acquire; Release] ++ work)%list. split; [exact Htr |].
        split; [| exact Hlock].
        cbn [app replay_lock]. rewrite <- (app_nil_r work).
        now rewrite (replay_unlocked_work _ _ Hwork).
Qed.

(** X9.  The worker never stops by itself: [run] leaves [_should_exit] as
    it finds it, and comes back from the loop exactly when the flag was set;
    a worker that is stopped before it runs takes no task and does nothing. *)
Theorem worker_runs_until_stopped self turns (st : State World) :
  (let '(res, st') := run turns self st in
   _should_exit st' = _should_exit st
   /\ (res = Ok Exited <-> _should_exit st = true))
  /\ run turns self (snd (stop st)) = (Ok Exited, snd (stop st)).
Proof.
  split.
  - revert st. induction turns as [|turns IH]; intros st.
    + cbn. destruct (_should_exit st) eqn:Hexit; cbn; rewrite ?Hexit; split; auto;
        split; auto; discriminate.
    + cbn [run]. destruct (_should_exit st) eqn:Hexit.
      * rewrite Hexit. split; [reflexivity | split; auto].
      * unfold bind. pose proof (turn_trace self st) as Hturn.
        destruct (run_iteration self st) as [[[] | e] st1];
          destruct Hturn as (work & _ & _ & _ & _ & Hexit1 & _).
        -- specialize (IH st1). destruct (run turns self st1) as [res st'].
           destruct IH as (Hexit' & Hiff). rewrite Hexit1, Hexit in *.
           split; [exact Hexit' | exact Hiff].
        -- rewrite Hexit1, Hexit. split; [reflexivity |]. split; discriminate.
  - destruct turns; reflexivity.
Qed.

(** X10.  With an empty queue the worker only polls: every turn acquires and
    releases the lock, nothing is run, no callback is made, and the loop is
    still running after any number of turns. *)
Theorem idle_worker_only_polls self turns (st : State World) :
  task_queue st = [] ->
  _should_exit st = false ->
  let '(res, st') := run turns self st in
  res = Ok StillRunning
  /\ world st' = world st
  /\ task_queue st' = []
  /\ trace st' = (trace st ++ List.concat (repeat [Acquire; Release] turns))%list.
Proof.
  revert st. induction turns as [|turns IH]; intros st Hq Hexit.
  - cbn. rewrite Hexit. cbn. now rewrite app_nil_r.
  - cbn [run]. rewrite Hexit. unfold bind. rewrite (run_iteration_idle self st Hq).
    specialize (IH (taken [] st) eq_refl Hexit).
    destruct (run turns self (taken [] st)) as [res st'].
    destruct IH as (-> & Hw & Hq' & Htr). repeat split; auto.
    rewrite Htr. cbn. now rewrite <- app_assoc.
Qed.

(** X11.  A run that has not raised after [turns] turns has taken exactly
    the first [turns] tasks of the queue, one per turn and in order; with a
    callback configured those are the tasks reported, and after as many
    turns as there were tasks the queue is empty. *)
Theorem one_task_per_turn self turns (st : State World) :
  _should_exit st = false ->
  let '(res, st') := run turns self st in
  is_ok_loop res = true ->
  task_queue st' = skipn turns (task_queue st)
  /\ (List.length (task_queue st) <= turns -> task_queue st' = [])
  /\ (_on_task_completed self = true ->
      exists evs,
        trace st' = (trace st ++ evs)%list
        /\ completed_tasks evs = firstn turns (task_queue st)).
Proof.
  intros Hexit.
  assert (Hqueue : let '(res, st') := run turns self st in
                   is_ok_loop res = true -> task_queue st' = skipn turns (task_queue st)).
  { revert st Hexit. induction turns as [|turns IH]; intros st Hexit.
    - cbn. rewrite Hexit. reflexivity.
    - cbn [run]. rewrite Hexit. unfold bind. pose proof (turn_trace self st) as Hturn.
      destruct (run_iteration self st) as [[[] | e] st1];
        destruct Hturn as (work & _ & _ & _ & _ & Hexit1 & Htl & _).
      + rewrite Hexit in Hexit1. specialize (IH st1 Hexit1).
        destruct (run turns self st1) as [res st'].
        intros Hok. rewrite (IH Hok), Htl. apply skipn_tl.
      + discriminate. }
  pose proof (run_reports_tasks self turns) as Hreport.
  destruct (run turns self st) as [res st'] eqn:Hrun.
  intros Hok. specialize (Hqueue Hok). split; [exact Hqueue |]. split.
  - intros Hlen. rewrite Hqueue. now apply skipn_all2.
  - intros Hcb. specialize (Hreport Hcb st). rewrite Hrun in Hreport.
    destruct Hreport as (evs & Htr & _ & Hres). exists evs. split; [exact Htr |].
    destruct res as [v | e]; [| discriminate].
    rewrite Hqueue in Hres.
    rewrite <- (firstn_skipn turns (task_queue st)) in Hres at 1.
    now apply app_inv_tail in Hres.
Qed.

(** X12.  The only programs a worker runs are the engine and the probe, and
    the probe only when [check_intervals] is set. *)
Theorem worker_runs_only_the_engine_and_the_probe self turns (st : State World) :
  let '(_, st') := run turns self st in
  exists evs,
    trace st' = (trace st ++ evs)%list
    /\ forallb (engine_or_probe (check_intervals (_render_options self))) evs = true.
Proof.
  revert st. induction turns as [|turns IH]; intros st.
  - cbn. destruct (_should_exit st); exists []; now rewrite app_nil_r.
  - cbn [run]. destruct (_should_exit st).
    + exists []. now rewrite app_nil_r.
    + unfold bind. pose proof (turn_trace self st) as Hturn.
      destruct (run_iteration self st) as [[[] | e] st1];
        destruct Hturn as (work & Htr & _ & Hprog & _).
      * specialize (IH st1). destruct (run turns self st1) as [res st'].
        destruct IH as (evs & Htr' & Hevs).
        exists ([Acquire; Release] ++ work ++ evs)%list.
        split; [rewrite Htr', Htr; now rewrite <- !app_assoc |].
        cbn [app forallb engine_or_probe andb]. now rewrite forallb_app, Hprog, Hevs.
      * exists ([Acquire; Release] ++ work)%list. split; [exact Htr |].
        cbn [app forallb engine_or_probe andb]. exact Hprog.
Qed.

End WorkerRuns.

Lemma zero_length_interval_divides_by_zero_witness :
  _generate_command (worker false false) "out_0.mp4" instant true 0.25%float
  = Raise ZeroDivisionError
  /\ _render_interval (worker false false) "out_0.mp4" instant true false 0.25%float
       (idle [] [fine])
     = (Raise ZeroDivisionError, idle [] [fine]).
Proof.
  refine (proj1 (proj2 (proj2
            (zero_length_interval_divides_by_zero (worker false false) "out_0.mp4" instant
               0.25%float false (idle [] [fine]) _ _ _))) _);
    reflexivity.
Defined.

Lemma raw_command_ignores_speed_and_volume_witness :
  _generate_command (worker false false) "out_0.mp4" silent_second false 0.25%float
  = _generate_command other_worker "out_0.mp4" audible_second false 1%float.
Proof.
  apply (raw_command_ignores_speed_and_volume (worker false false) other_worker "out_0.mp4"
           silent_second audible_second 0.25%float 1%float); reflexivity.
Defined.

Lemma lock_is_free_outside_the_queue_access_witness :
  let '(_, st') :=
    run 3 (worker false true)
      (idle [task0; task0] [conversion_failed; fine; probe_rejects; filter_failed]) in
  exists evs,
    trace st' = ([] ++ evs)%list
    /\ replay_lock false evs = Some false
    /\ lock_held st' = false.
Proof.
  apply (lock_is_free_outside_the_queue_access (worker false true) 3
           (idle [task0; task0] [conversion_failed; fine; probe_rejects; filter_failed])).
  reflexivity.
Defined.

Lemma idle_worker_only_polls_witness :
  let '(res, st') := run 2 (worker false true) (idle [] [fine]) in
  res = Ok StillRunning
  /\ world st' = [fine]
  /\ task_queue st' = []
  /\ trace st' = ([] ++ List.concat (repeat [Acquire; Release] 2))%list.
Proof.
  apply (idle_worker_only_polls (worker false true) 2 (idle [] [fine])); reflexivity.
Defined.

Lemma one_task_per_turn_witness :
  let '(res, st') := run 2 (worker false false) (idle [task0; task0; task0] [fine; fine]) in
  is_ok_loop res = true ->
  task_queue st' = skipn 2 [task0; task0; task0]
  /\ (List.length [task0; task0; task0] <= 2 -> task_queue st' = [])
  /\ (_on_task_completed (worker false false) = true ->
      exists evs,
        trace st' = ([] ++ evs)%list
        /\ completed_tasks evs = firstn 2 [task0; task0; task0]).
Proof.
  apply (one_task_per_turn (worker false false) 2
           (idle [task0; task0; task0] [fine; fine])).
  reflexivity.
Defined.
